(** * pplx_api: request validation, credential resolution and the stream accumulator

  A shallow embedding of [src/pplx_api/pplx_api.py].

  - Python [str] values are modelled as [string] holding the UTF-8 encoding
    of the text, [bytes] values as [string] holding the raw bytes.
  - Python [dict] values are association lists in insertion order, with
    Python's [d[k] = v] (overwrite in place, else append).
  - Python exceptions are values of [exn]; a computation that can raise has
    type [exn + A].
  - [print] and the stream callback are recorded in an event trace. *)

From Stdlib Require Import List String Ascii ZArith QArith Bool Lia.
Import ListNotations.
Local Open Scope string_scope.
Local Open Scope Z_scope.

Set Implicit Arguments.

(** ** Characters and text *)

Module Text.

Definition code (c : ascii) : N := N_of_ascii c.

(** The double quote character, and [dq], which turns every apostrophe of
    a literal into a double quote (used to write JSON texts). *)
Definition quote : ascii := "034"%char.

Fixpoint dq (s : string) : string :=
  match s with
  | EmptyString => EmptyString
  | String c r => String (if Ascii.eqb c "'"%char then quote else c) (dq r)
  end.

Fixpoint rev_append (s acc : string) : string :=
  match s with
  | EmptyString => acc
  | String c r => rev_append r (String c acc)
  end.

Definition rev (s : string) : string := rev_append s EmptyString.

Definition in_range (lo hi : N) (c : ascii) : bool :=
  (N.leb lo (code c) && N.leb (code c) hi)%bool.

(** [bytes.decode('utf-8')]: the well-formed byte sequences of UTF-8
    (no overlong forms, no surrogates, nothing above U+10FFFF).
    [valid_utf8 s] walks the lead bytes. *)
Definition cont (c : ascii) : bool := in_range 128 191 c.

Fixpoint valid_utf8 (s : string) : bool :=
  match s with
  | EmptyString => true
  | String a r =>
      if N.leb (code a) 127 then valid_utf8 r
      else match r with
      | String b r2 =>
          if in_range 194 223 a then (cont b && valid_utf8 r2)%bool
          else match r2 with
          | String c r3 =>
              if in_range 224 239 a then
                ((if N.eqb (code a) 224 then in_range 160 191 b
                  else if N.eqb (code a) 237 then in_range 128 159 b
                  else cont b) && cont c && valid_utf8 r3)%bool
              else match r3 with
              | String d r4 =>
                  if in_range 240 244 a then
                    ((if N.eqb (code a) 240 then in_range 144 191 b
                      else if N.eqb (code a) 244 then in_range 128 143 b
                      else cont b) && cont c && cont d && valid_utf8 r4)%bool
                  else false
              | EmptyString => false
              end
          | EmptyString => false
          end
      | EmptyString => false
      end
  end.

(** [None] stands for [UnicodeDecodeError]. *)
Definition decode_utf8 (line : string) : option string :=
  if valid_utf8 line then Some line else None.

(** [str.isspace] on one code point, read off the head of the encoded
    text: the number of bytes of the whitespace character at the head, or
    0 when the head is not whitespace.  Python's whitespace code points are
    U+0009..U+000D, U+001C..U+0020, U+0085, U+00A0, U+1680, U+2000..U+200A,
    U+2028, U+2029, U+202F, U+205F and U+3000. *)
Definition ascii_space (c : ascii) : bool :=
  (in_range 9 13 c || in_range 28 32 c)%bool.

Definition space_at_head (s : string) : nat :=
  match s with
  | EmptyString => 0%nat
  | String a r =>
      if ascii_space a then 1%nat
      else match r with
      | String b r2 =>
          if (N.eqb (code a) 194 && (N.eqb (code b) 133 || N.eqb (code b) 160))%bool
          then 2%nat
          else match r2 with
          | String c _ =>
              let a' := code a in let b' := code b in let c' := code c in
              if (N.eqb a' 225 && N.eqb b' 154 && N.eqb c' 128)%bool then 3%nat
              else if (N.eqb a' 226 && N.eqb b' 128
                       && (in_range 128 138 c || in_range 168 169 c || N.eqb c' 175))%bool
              then 3%nat
              else if (N.eqb a' 226 && N.eqb b' 129 && N.eqb c' 159)%bool then 3%nat
              else if (N.eqb a' 227 && N.eqb b' 128 && N.eqb c' 128)%bool then 3%nat
              else 0%nat
          | EmptyString => 0%nat
          end
      | EmptyString => 0%nat
      end
  end.

(** The same test at the end of the text, on the reversed bytes. *)
Definition space_at_head_rev (s : string) : nat :=
  match s with
  | EmptyString => 0%nat
  | String c r =>
      if ascii_space c then 1%nat
      else match r with
      | String b r2 =>
          if Nat.eqb (space_at_head (String b (String c EmptyString))) 2 then 2%nat
          else match r2 with
          | String a _ =>
              if Nat.eqb (space_at_head (String a (String b (String c EmptyString)))) 3
              then 3%nat else 0%nat
          | EmptyString => 0%nat
          end
      | EmptyString => 0%nat
      end
  end.

Fixpoint drop (n : nat) (s : string) : string :=
  match n, s with
  | O, _ => s
  | S n', String _ r => drop n' r
  | S _, EmptyString => EmptyString
  end.

(** Remove whitespace characters from the head, as long as there are any. *)
Fixpoint strip_head (at_head : string -> nat) (s : string) : string :=
  match s with
  | EmptyString => s
  | String _ r =>
      match at_head s with
      | 1%nat => strip_head at_head r
      | 2%nat => match r with
                 | String _ r2 => strip_head at_head r2
                 | EmptyString => s
                 end
      | 3%nat => match r with
                 | String _ (String _ r3) => strip_head at_head r3
                 | _ => s
                 end
      | _ => s
      end
  end.

(** [str.strip()] *)
Definition strip (s : string) : string :=
  rev (strip_head space_at_head_rev (rev (strip_head space_at_head s))).

(** [str.startswith] *)
Definition startswith (s p : string) : bool := String.prefix p s.

(** [needle in haystack] on two [str] values *)
Fixpoint contains (needle hay : string) : bool :=
  (String.prefix needle hay
   || match hay with
      | EmptyString => false
      | String _ r => contains needle r
      end)%bool.

(** The number of bytes of the first character of a well-formed text. *)
Definition first_char_len (s : string) : nat :=
  match s with
  | EmptyString => 0%nat
  | String a _ =>
      if N.leb (code a) 127 then 1%nat
      else if N.leb (code a) 223 then 2%nat
      else if N.leb (code a) 239 then 3%nat
      else 4%nat
  end.

(** [s[0]] on a non-empty [str] *)
Definition first_char (s : string) : string :=
  String.substring 0 (first_char_len s) s.

End Text.

(** ** JSON values, as [json.loads] builds them *)

(** A Python [dict] with [str] keys is an association list in insertion
  order; [int] is [Z]; a [float] is kept as the literal it was read from
  (nothing here depends on float arithmetic). *)
#[warnings="-register-all"]
Inductive json : Type :=
| JNull
| JBool (b : bool)
| JInt (n : Z)
| JFloat (lit : string)
| JStr (s : string)
| JArr (l : list json)
| JObj (d : list (string * json)).

Definition pydict : Type := list (string * json).

Module Dict.

(** [d.get(k)] / lookup *)
Fixpoint get (k : string) (d : pydict) : option json :=
  match d with
  | [] => None
  | (k', v) :: r => if String.eqb k k' then Some v else get k r
  end.

(** [k in d] *)
Definition mem (k : string) (d : pydict) : bool :=
  match get k d with Some _ => true | None => false end.

(** [d[k] = v]: an existing key keeps its position *)
Fixpoint set (k : string) (v : json) (d : pydict) : pydict :=
  match d with
  | [] => [(k, v)]
  | (k', v') :: r =>
      if String.eqb k k' then (k', v) :: r else (k', v') :: set k v r
  end.

(** [d.update(other)]: the items of [other] are stored in order *)
Definition update (d other : pydict) : pydict :=
  fold_left (fun a kv => set (fst kv) (snd kv) a) other d.

Definition keys (d : pydict) : list string := map fst d.

End Dict.

Module Json.

Import Text.

Inductive token : Type :=
| TLBrace | TRBrace | TLBracket | TRBracket | TColon | TComma
| TStr (s : string)
| TAtom (s : string).

Inductive lex_mode : Type :=
| LOut
| LAtom (racc : string)
| LStr (racc : string).

Definition is_ws (c : ascii) : bool :=
  (N.eqb (code c) 32 || N.eqb (code c) 9 || N.eqb (code c) 10 || N.eqb (code c) 13)%bool.

Definition is_digit (c : ascii) : bool := in_range 48 57 c.

(** The characters numbers and the literals [null], [true], [false],
    [NaN], [Infinity], [-Infinity] are made of. *)
Definition atom_char (c : ascii) : bool :=
  (is_digit c || in_range 65 90 c || in_range 97 122 c
   || Ascii.eqb c "+" || Ascii.eqb c "-" || Ascii.eqb c ".")%bool.

Definition punct (c : ascii) : option token :=
  if Ascii.eqb c "{" then Some TLBrace
  else if Ascii.eqb c "}" then Some TRBrace
  else if Ascii.eqb c "[" then Some TLBracket
  else if Ascii.eqb c "]" then Some TRBracket
  else if Ascii.eqb c ":" then Some TColon
  else if Ascii.eqb c "," then Some TComma
  else None.

Definition hex_digit (c : ascii) : option N :=
  if is_digit c then Some (code c - 48)%N
  else if in_range 97 102 c then Some (code c - 87)%N
  else if in_range 65 70 c then Some (code c - 55)%N
  else None.

Definition hex4 (a b c d : ascii) : option N :=
  match hex_digit a, hex_digit b, hex_digit c, hex_digit d with
  | Some x, Some y, Some z, Some w => Some (((x * 16 + y) * 16 + z) * 16 + w)%N
  | _, _, _, _ => None
  end.

Definition byte (n : N) : ascii := ascii_of_N n.

(** The UTF-8 bytes of a code point, pushed in reverse on [racc]
    (a lone surrogate is written in the same three-byte form). *)
Definition push_utf8 (cp : N) (racc : string) : string :=
  if (cp <? 128)%N then String (byte cp) racc
  else if (cp <? 2048)%N then
    String (byte (128 + cp mod 64)) (String (byte (192 + cp / 64)) racc)
  else if (cp <? 65536)%N then
    String (byte (128 + cp mod 64))
      (String (byte (128 + (cp / 64) mod 64)) (String (byte (224 + cp / 4096)) racc))
  else
    String (byte (128 + cp mod 64))
      (String (byte (128 + (cp / 64) mod 64))
         (String (byte (128 + (cp / 4096) mod 64)) (String (byte (240 + cp / 262144)) racc))).

Definition is_high (cp : N) : bool := (N.leb 55296 cp && N.leb cp 56319)%bool.
Definition is_low (cp : N) : bool := (N.leb 56320 cp && N.leb cp 57343)%bool.
Definition join_surrogates (hi lo : N) : N :=
  (65536 + (hi - 55296) * 1024 + (lo - 56320))%N.

Definition simple_escape (e : ascii) : option ascii :=
  if Ascii.eqb e quote then Some quote
  else if Ascii.eqb e "\" then Some "\"%char
  else if Ascii.eqb e "/" then Some "/"%char
  else if Ascii.eqb e "b" then Some "008"%char
  else if Ascii.eqb e "f" then Some "012"%char
  else if Ascii.eqb e "n" then Some "010"%char
  else if Ascii.eqb e "r" then Some "013"%char
  else if Ascii.eqb e "t" then Some "009"%char
  else None.

Definition pending (m : lex_mode) : string :=
  match m with LAtom a => a | _ => EmptyString end.

Definition flush (m : lex_mode) (toks : list token) : list token :=
  match m with LAtom a => TAtom (rev a) :: toks | _ => toks end.

(** The scanner: one pass over the text, tokens collected in reverse. *)
Fixpoint lex (m : lex_mode) (s : string) (toks : list token) : option (list token) :=
  match s with
  | EmptyString =>
      match m with
      | LStr _ => None
      | _ => Some (List.rev (flush m toks))
      end
  | String c r =>
      match m with
      | LStr a =>
          if Ascii.eqb c quote then lex LOut r (TStr (rev a) :: toks)
          else if Ascii.eqb c "\" then
            match r with
            | EmptyString => None
            | String e r2 =>
                if Ascii.eqb e "u" then
                  match r2 with
                  | String h1 (String h2 (String h3 (String h4 r6))) =>
                      match hex4 h1 h2 h3 h4 with
                      | None => None
                      | Some cp =>
                          match r6 with
                          | String b1 (String b2 (String g1 (String g2 (String g3 (String g4 r12))))) =>
                              if (is_high cp && Ascii.eqb b1 "\" && Ascii.eqb b2 "u")%bool then
                                match hex4 g1 g2 g3 g4 with
                                | None => None
                                | Some lo =>
                                    if is_low lo
                                    then lex (LStr (push_utf8 (join_surrogates cp lo) a)) r12 toks
                                    else lex (LStr (push_utf8 cp a)) r6 toks
                                end
                              else lex (LStr (push_utf8 cp a)) r6 toks
                          | _ => lex (LStr (push_utf8 cp a)) r6 toks
                          end
                      end
                  | _ => None
                  end
                else
                  match simple_escape e with
                  | Some b => lex (LStr (String b a)) r2 toks
                  | None => None
                  end
            end
          else if (code c <? 32)%N then None
          else lex (LStr (String c a)) r toks
      | _ =>
          if atom_char c then lex (LAtom (String c (pending m))) r toks
          else if is_ws c then lex LOut r (flush m toks)
          else if Ascii.eqb c quote then lex (LStr EmptyString) r (flush m toks)
          else match punct c with
               | Some t => lex LOut r (t :: flush m toks)
               | None => None
               end
      end
  end.

(** Numbers: an optional minus sign; 0, or a non-zero digit and more
    digits; optionally a point and one or more digits; optionally e or E,
    an optional sign and one or more digits.  Without fraction and
    exponent the number is an [int]. *)
Fixpoint span_digits (s : string) (n : Z) (k : nat) : Z * nat * string :=
  match s with
  | String c r =>
      if is_digit c then span_digits r (n * 10 + Z.of_N (code c - 48)) (S k)
      else (n, k, s)
  | EmptyString => (n, k, s)
  end.

Definition number_tail_ok (s : string) : bool :=
  let after_frac :=
    match s with
    | String "." r =>
        match span_digits r 0 0 with
        | (_, O, _) => None
        | (_, _, r') => Some r'
        end
    | _ => Some s
    end in
  match after_frac with
  | None => false
  | Some EmptyString => true
  | Some (String e r) =>
      if (Ascii.eqb e "e" || Ascii.eqb e "E")%bool then
        let r1 := match r with
                  | String sg r' =>
                      if (Ascii.eqb sg "+" || Ascii.eqb sg "-")%bool then r' else r
                  | EmptyString => r
                  end in
        match span_digits r1 0 0 with
        | (_, S _, EmptyString) => true
        | _ => false
        end
      else false
  end.

Definition number (lit : string) : option json :=
  let '(neg, body) :=
    match lit with
    | String "-" r => (true, r)
    | _ => (false, lit)
    end in
  match body with
  | EmptyString => None
  | String d0 _ =>
      let '(n, k, rest) := span_digits body 0 0 in
      if (Nat.eqb k 0 || (Ascii.eqb d0 "0" && negb (Nat.eqb k 1)))%bool then None
      else match rest with
           | EmptyString => Some (JInt (if neg then - n else n))
           | _ => if number_tail_ok rest then Some (JFloat lit) else None
           end
  end.

Definition atom (lit : string) : option json :=
  if String.eqb lit "null" then Some JNull
  else if String.eqb lit "true" then Some (JBool true)
  else if String.eqb lit "false" then Some (JBool false)
  else if (String.eqb lit "NaN" || String.eqb lit "Infinity"
           || String.eqb lit "-Infinity")%bool then Some (JFloat lit)
  else number lit.

(** The parser: a stack of open containers and what may come next. *)
Inductive frame : Type :=
| FArr (relems : list json)
| FObj (d : pydict)
| FObjKey (d : pydict) (k : string).

Inductive expect : Type :=
| EValue            (* a value *)
| EArrFirst         (* a value or the closing bracket *)
| EObjFirst         (* a key or the closing brace *)
| EKey              (* a key *)
| EColon (k : string)
| EArrNext          (* a comma or the closing bracket *)
| EObjNext          (* a comma or the closing brace *)
| EEnd (v : json).  (* the whole value is read *)

Definition pstate : Type := (list frame * expect)%type.

(** A value [v] is complete: store it in the innermost open container. *)
Definition complete (v : json) (st : list frame) : option pstate :=
  match st with
  | [] => Some ([], EEnd v)
  | FArr l :: st' => Some (FArr (v :: l) :: st', EArrNext)
  | FObjKey d k :: st' => Some (FObj (Dict.set k v d) :: st', EObjNext)
  | FObj _ :: _ => None
  end.

Definition start_value (t : token) (st : list frame) : option pstate :=
  match t with
  | TStr s => complete (JStr s) st
  | TAtom a => match atom a with Some v => complete v st | None => None end
  | TLBracket => Some (FArr [] :: st, EArrFirst)
  | TLBrace => Some (FObj [] :: st, EObjFirst)
  | _ => None
  end.

Definition close_arr (st : list frame) : option pstate :=
  match st with
  | FArr l :: st' => complete (JArr (List.rev l)) st'
  | _ => None
  end.

Definition close_obj (st : list frame) : option pstate :=
  match st with
  | FObj d :: st' => complete (JObj d) st'
  | _ => None
  end.

Definition step (p : pstate) (t : token) : option pstate :=
  let '(st, e) := p in
  match e, t with
  | EValue, _ => start_value t st
  | EArrFirst, TRBracket => close_arr st
  | EArrFirst, _ => start_value t st
  | EObjFirst, TRBrace => close_obj st
  | EObjFirst, TStr k => Some (st, EColon k)
  | EKey, TStr k => Some (st, EColon k)
  | EColon k, TColon =>
      match st with
      | FObj d :: st' => Some (FObjKey d k :: st', EValue)
      | _ => None
      end
  | EArrNext, TComma => Some (st, EValue)
  | EArrNext, TRBracket => close_arr st
  | EObjNext, TComma => Some (st, EKey)
  | EObjNext, TRBrace => close_obj st
  | _, _ => None
  end.

Fixpoint run (p : pstate) (ts : list token) : option json :=
  match ts with
  | [] => match p with
          | ([], EEnd v) => Some v
          | _ => None
          end
  | t :: r => match step p t with
              | Some p' => run p' r
              | None => None
              end
  end.

(** [json.loads(s)]; [None] stands for [json.JSONDecodeError].  The
    limits of the interpreter (recursion depth, digits of an [int]) are not
    part of the model. *)
Definition loads (s : string) : option json :=
  match lex LOut s [] with
  | Some ts => run ([], EValue) ts
  | None => None
  end.

End Json.
(** ** Python operations on JSON values *)

Inductive exn : Type :=
| UnicodeDecodeError
| AttributeError
| KeyError
| IndexError
| TypeError
| ValueError.

Module Py.

Definition bind {A B : Type} (m : exn + A) (f : A -> exn + B) : exn + B :=
  match m with
  | inl e => inl e
  | inr a => f a
  end.

Definition raise {A : Type} (e : exn) : exn + A := inl e.
Definition ret {A : Type} (a : A) : exn + A := inr a.

(** [v[k]] for a [str] key: only a [dict] takes one. *)
Definition getitem (v : json) (k : string) : exn + json :=
  match v with
  | JObj d => match Dict.get k d with
              | Some x => ret x
              | None => raise KeyError
              end
  | _ => raise TypeError
  end.

(** [v[0]]: the first element of a [list], the first character of a
    [str]; a [dict] with [str] keys has no key [0]. *)
Definition getitem0 (v : json) : exn + json :=
  match v with
  | JArr (x :: _) => ret x
  | JArr [] => raise IndexError
  | JStr EmptyString => raise IndexError
  | JStr s => ret (JStr (Text.first_char s))
  | JObj _ => raise KeyError
  | _ => raise TypeError
  end.

(** [v.items()] *)
Definition items (v : json) : exn + pydict :=
  match v with
  | JObj d => ret d
  | _ => raise AttributeError
  end.

(** [v.get(k, default)] *)
Definition get (v : json) (k : string) (default : json) : exn + json :=
  match v with
  | JObj d => ret (match Dict.get k d with Some x => x | None => default end)
  | _ => raise AttributeError
  end.

(** [k in v] for a [str] [k] *)
Definition contains (k : string) (v : json) : exn + bool :=
  match v with
  | JObj d => ret (Dict.mem k d)
  | JArr l => ret (existsb (fun x => match x with
                                     | JStr s => String.eqb s k
                                     | _ => false
                                     end) l)
  | JStr s => ret (Text.contains k s)
  | _ => raise TypeError
  end.

(** [old += x] where [old] is an accumulated content: a [str] takes
    a [str] only.  (The accumulated contents are always [str], so no other
    left operand occurs.) *)
Definition iadd (old x : json) : exn + json :=
  match old, x with
  | JStr a, JStr b => ret (JStr (a ++ b))
  | _, _ => raise TypeError
  end.

(** In-place stores, as functional updates. *)
Definition setitem (v : json) (k : string) (x : json) : json :=
  match v with
  | JObj d => JObj (Dict.set k x d)
  | _ => v
  end.

Definition setitem0 (v : json) (x : json) : json :=
  match v with
  | JArr (_ :: r) => JArr (x :: r)
  | _ => v
  end.

End Py.

Notation "x <- m ;; k" := (Py.bind m (fun x => k))
(at level 61, m at next level, right associativity).

(** ** PerplexityRequest *)

Record Message : Type := { role : string; content : string }.

Module PerplexityRequest.

(** The keyword arguments of a construction: [None] is a field that was
    not supplied (or, for the three optional fields, supplied as [None]);
    [extra] lists the names of unrecognised keywords.  A [float] argument
    is a finite number, given as a rational. *)
Record args : Type := {
  a_model : option string;
  a_messages : option (list Message);
  a_max_tokens : option Z;
  a_temperature : option Q;
  a_top_p : option Q;
  a_return_citations : option bool;
  a_search_domain_filter : option (list string);
  a_return_images : option bool;
  a_return_related_questions : option bool;
  a_search_recency_filter : option string;
  a_top_k : option Z;
  a_stream : option bool;
  a_presence_penalty : option Q;
  a_frequency_penalty : option Q;
  a_extra : list string
}.

Record t : Type := {
  model : string;
  messages : list Message;
  max_tokens : option Z;
  temperature : Q;
  top_p : Q;
  return_citations : bool;
  search_domain_filter : option (list string);
  return_images : bool;
  return_related_questions : bool;
  search_recency_filter : option string;
  top_k : Z;
  stream : bool;
  presence_penalty : Q;
  frequency_penalty : Q
}.

Inductive error_type : Type :=
| missing
| greater_than_equal
| less_than
| less_than_equal
| too_long
| extra_forbidden
| invalid_search_recency_filter.

(** One entry of a [ValidationError]: the field and the kind of error. *)
Definition error : Type := (string * error_type)%type.

Definition Qge_bool (x bound : Q) : bool := Qle_bool bound x.
Definition Qlt_bool (x bound : Q) : bool := negb (Qle_bool bound x).

(** [Field(ge=..., lt=..., le=...)] on a supplied value; a default is
    not validated. *)
Definition check {A : Type} (field : string) (v : option A)
    (cs : list ((A -> bool) * error_type)) : list error :=
  match v with
  | None => []
  | Some x =>
      flat_map (fun c : (A -> bool) * error_type =>
                  if fst c x then [] else [(field, snd c)]) cs
  end.

(** [validate_search_recency_filter] *)
Definition validate_search_recency_filter (v : option string) : list error + option string :=
  match v with
  | Some s =>
      if negb (existsb (String.eqb s) ["month"; "week"; "day"; "hour"])
      then inl [("search_recency_filter", invalid_search_recency_filter)]
      else inr v
  | None => inr v
  end.

Definition errors_of {A : Type} (r : list error + A) : list error :=
  match r with inl es => es | inr _ => [] end.

(** The errors of all fields, in field order; unrecognised keywords last
    (['extra': 'forbid']). *)
Definition validate (a : args) : list error :=
  (match a_messages a with None => [("messages", missing)] | Some _ => [] end)
  ++ check "temperature" (a_temperature a)
       [(fun x => Qge_bool x (0 # 1), greater_than_equal); (fun x => Qlt_bool x (2 # 1), less_than)]
  ++ check "top_p" (a_top_p a)
       [(fun x => Qge_bool x (0 # 1), greater_than_equal); (fun x => Qle_bool x (1 # 1), less_than_equal)]
  ++ check "search_domain_filter" (a_search_domain_filter a)
       [(fun l => Nat.leb (List.length l) 3, too_long)]
  ++ errors_of (validate_search_recency_filter (a_search_recency_filter a))
  ++ check "top_k" (a_top_k a)
       [(fun x => Z.leb 0 x, greater_than_equal); (fun x => Z.leb x 2048, less_than_equal)]
  ++ check "presence_penalty" (a_presence_penalty a)
       [(fun x => Qge_bool x (-2 # 1), greater_than_equal); (fun x => Qle_bool x (2 # 1), less_than_equal)]
  ++ check "frequency_penalty" (a_frequency_penalty a)
       [(fun x => Qge_bool x (0 # 1), greater_than_equal)]
  ++ map (fun k => (k, extra_forbidden)) (a_extra a).

Definition default {A : Type} (v : option A) (d : A) : A :=
  match v with Some x => x | None => d end.

(** Construction from keyword arguments: the request, or the entries of the
    [ValidationError] that is raised. *)
Definition new (a : args) : list error + t :=
  match validate a with
  | [] =>
      inr {| model := default (a_model a) "llama-3.1-sonar-large-128k-online";
             messages := default (a_messages a) [];
             max_tokens := a_max_tokens a;
             temperature := default (a_temperature a) (2 # 10);
             top_p := default (a_top_p a) (9 # 10);
             return_citations := default (a_return_citations a) false;
             search_domain_filter := a_search_domain_filter a;
             return_images := default (a_return_images a) false;
             return_related_questions := default (a_return_related_questions a) false;
             search_recency_filter := a_search_recency_filter a;
             top_k := default (a_top_k a) 0;
             stream := default (a_stream a) true;
             presence_penalty := default (a_presence_penalty a) (0 # 1);
             frequency_penalty := default (a_frequency_penalty a) (1 # 1) |}
  | es => inl es
  end.

(** The arguments of [PerplexityRequest(messages=msgs)]. *)
Definition only_messages (msgs : list Message) : args :=
  {| a_model := None; a_messages := Some msgs; a_max_tokens := None;
     a_temperature := None; a_top_p := None; a_return_citations := None;
     a_search_domain_filter := None; a_return_images := None;
     a_return_related_questions := None; a_search_recency_filter := None;
     a_top_k := None; a_stream := None; a_presence_penalty := None;
     a_frequency_penalty := None; a_extra := [] |}.

End PerplexityRequest.

(** ** PerplexityClient *)

Module PerplexityClient.

Import Text.

Record client : Type := { api_key : string }.

(** [os.environ.get(name)] on the process environment. *)
Fixpoint environ_get (environ : list (string * string)) (name : string) : option string :=
  match environ with
  | [] => None
  | (k, v) :: r => if String.eqb k name then Some v else environ_get r name
  end.

(** Truth value of an [Optional[str]]. *)
Definition truthy (v : option string) : bool :=
  match v with
  | Some EmptyString => false
  | Some _ => true
  | None => false
  end.

(** [a or b] *)
Definition py_or (a b : option string) : option string :=
  if truthy a then a else b.

Definition __init__ (environ : list (string * string)) (api_key : option string)
    : exn + client :=
  let key := py_or api_key (environ_get environ "PERPLEXITY_API_KEY") in
  if negb (truthy key) then Py.raise ValueError
  else match key with
       | Some k => Py.ret {| api_key := k |}
       | None => Py.raise ValueError
       end.

(** What the caller observes while a stream is consumed.  A callback is
    taken to return normally. *)
Inductive event : Type :=
| Printed (msg : string)          (* [print(msg)] *)
| Called (fragment : string)      (* [stream_callback(content)] *)
| Scheduled (fragment : string)   (* [self._handle_async_callback(stream_callback, content)] *)
| Awaited (fragment : string).    (* [await stream_callback(content)] *)

(** A callback is a plain function or a coroutine function
    ([asyncio.iscoroutinefunction]). *)
Inductive callback : Type := Plain | Coroutine.

Definition skeleton : pydict :=
  [ ("id", JNull);
    ("model", JNull);
    ("object", JStr "chat.completion");
    ("created", JNull);
    ("choices", JArr [ JObj [ ("index", JInt 0);
                             ("finish_reason", JNull);
                             ("message", JObj [("role", JStr "assistant"); ("content", JStr EmptyString)]);
                             ("delta", JObj [("role", JStr "assistant"); ("content", JStr EmptyString)]) ] ]);
    ("usage", JObj [ ("prompt_tokens", JNull);
                     ("completion_tokens", JNull);
                     ("total_tokens", JNull) ]) ].

(** [v["choices"][0]] *)
Definition choice0 (v : json) : exn + json :=
  choices <- Py.getitem v "choices" ;;
  Py.getitem0 choices.

(** [accumulated_response["choices"][0][field]["content"] += content] *)
Definition add_content (field : string) (content : json) (acc : pydict) : exn + pydict :=
  choices <- Py.getitem (JObj acc) "choices" ;;
  c0 <- Py.getitem0 choices ;;
  inner <- Py.getitem c0 field ;;
  old <- Py.getitem inner "content" ;;
  new <- Py.iadd old content ;;
  Py.ret (Dict.set "choices"
            (Py.setitem0 choices (Py.setitem c0 field (Py.setitem inner "content" new)))
            acc).

(** [accumulated_response["choices"][0]["finish_reason"] = v] *)
Definition set_finish_reason (v : json) (acc : pydict) : exn + pydict :=
  choices <- Py.getitem (JObj acc) "choices" ;;
  c0 <- Py.getitem0 choices ;;
  Py.ret (Dict.set "choices" (Py.setitem0 choices (Py.setitem c0 "finish_reason" v)) acc).

(** [{k: v for k, v in chunk.items() if k not in ["choices", "usage"]}] *)
Definition merged_keys (items : pydict) : pydict :=
  Dict.update []
    (filter (fun kv => negb (existsb (String.eqb (fst kv)) ["choices"; "usage"])) items).

(** The body of the [try] after [json.loads]; [notify] is what the
    function does with a non-empty fragment.  (Where the callback is
    reached, [content] is a [str]: the two [+=] have succeeded.) *)
Definition process_chunk (notify : string -> list event) (acc : pydict) (chunk : json)
    : exn + (pydict * list event) :=
  its <- Py.items chunk ;;
  let acc := Dict.update acc (merged_keys its) in
  c0 <- choice0 chunk ;;
  delta <- Py.getitem c0 "delta" ;;
  content <- Py.get delta "content" (JStr EmptyString) ;;
  acc <- add_content "delta" content acc ;;
  acc <- add_content "message" content acc ;;
  c0 <- choice0 chunk ;;
  has_reason <- Py.contains "finish_reason" c0 ;;
  acc <- (if has_reason : bool then
            c0 <- choice0 chunk ;;
            reason <- Py.getitem c0 "finish_reason" ;;
            set_finish_reason reason acc
          else Py.ret acc) ;;
  has_usage <- Py.contains "usage" chunk ;;
  acc <- (if has_usage : bool then
            usage <- Py.getitem chunk "usage" ;;
            Py.ret (Dict.set "usage" usage acc)
          else Py.ret acc) ;;
  Py.ret (acc, match content with
               | JStr EmptyString => []
               | JStr s => notify s
               | _ => []
               end).

(** The body of the loop, for one line of the response. *)
Definition handle_line (notify : string -> list event) (acc : pydict) (line : string)
    : exn + (pydict * list event) :=
  match line with
  | EmptyString => Py.ret (acc, [])
  | _ =>
      match decode_utf8 line with
      | None => Py.raise UnicodeDecodeError
      | Some text =>
          let event_data := strip text in
          if startswith event_data "data: " then
            let data := drop 6 event_data in
            if negb (String.eqb data "[DONE]") then
              match Json.loads data with
              | Some chunk => process_chunk notify acc chunk
              | None =>
                  Py.ret (acc, [Printed ("Failed to parse JSON from stream: " ++ data)])
              end
            else Py.ret (acc, [])
          else Py.ret (acc, [])
      end
  end.

(** The [for] loop: the events so far and either the exception that
    ended the call or the accumulated response. *)
Fixpoint consume (notify : string -> list event) (lines : list string)
    (acc : pydict) (seen : list event) : list event * (exn + pydict) :=
  match lines with
  | [] => (seen, Py.ret acc)
  | line :: rest =>
      match handle_line notify acc line with
      | inl e => (seen, Py.raise e)
      | inr (acc', evs) => consume notify rest acc' (seen ++ evs)
      end
  end.

(** [if stream_callback and content:] in the blocking variant. *)
Definition notify_sync (stream_callback : option callback) (fragment : string) : list event :=
  match stream_callback with
  | None => []
  | Some Coroutine => [Scheduled fragment]
  | Some Plain => [Called fragment]
  end.

(** The same in the asynchronous variant, whose callback is a coroutine
    function by its type. *)
Definition notify_async (stream_callback : option unit) (fragment : string) : list event :=
  match stream_callback with
  | None => []
  | Some _ => [Awaited fragment]
  end.

(** [response.iter_lines()] is given as the list of its lines. *)
Definition _handle_stream_response (lines : list string)
    (stream_callback : option callback) : list event * (exn + pydict) :=
  consume (notify_sync stream_callback) lines skeleton [].

(** [response.content] is given as the list of its lines. *)
Definition _handle_async_stream_response (lines : list string)
    (stream_callback : option unit) : list event * (exn + pydict) :=
  consume (notify_async stream_callback) lines skeleton [].

(** Observations on an accumulated response:
    [acc["choices"][0][field]["content"]],
    [acc["choices"][0]["finish_reason"]], [acc["usage"]], [acc["object"]]. *)
Definition content_of (field : string) (acc : pydict) : exn + json :=
  c0 <- choice0 (JObj acc) ;;
  inner <- Py.getitem c0 field ;;
  Py.getitem inner "content".

Definition message_content (acc : pydict) : exn + json := content_of "message" acc.
Definition delta_content (acc : pydict) : exn + json := content_of "delta" acc.

Definition finish_reason (acc : pydict) : exn + json :=
  c0 <- choice0 (JObj acc) ;;
  Py.getitem c0 "finish_reason".

Definition usage (acc : pydict) : exn + json := Py.getitem (JObj acc) "usage".
Definition object (acc : pydict) : exn + json := Py.getitem (JObj acc) "object".

(** *** Vocabulary for the statements *)

(** What the loop body finds in a line. *)
Inductive line_class : Type :=
| Undecodable                 (* not UTF-8 *)
| Ignored                     (* empty, or without the prefix *)
| Sentinel                    (* the payload is [DONE] *)
| Malformed (data : string)   (* the payload is not JSON *)
| Chunk (chunk : json).       (* the payload parsed to [chunk] *)

(** The payload of a line: what follows the prefix, for a non-empty
    line that decodes and, stripped, starts with the prefix. *)
Definition payload (line : string) : option string :=
  match line with
  | EmptyString => None
  | _ =>
      match decode_utf8 line with
      | None => None
      | Some text =>
          if startswith (strip text) "data: " then Some (drop 6 (strip text)) else None
      end
  end.

Definition classify (line : string) : line_class :=
  match line with
  | EmptyString => Ignored
  | _ =>
      match decode_utf8 line with
      | None => Undecodable
      | Some _ =>
          match payload line with
          | None => Ignored
          | Some data =>
              if String.eqb data "[DONE]" then Sentinel
              else match Json.loads data with
                   | Some chunk => Chunk chunk
                   | None => Malformed data
                   end
          end
      end
  end.

(** The expected shape of a chunk: an object whose [choices] is a list
    that starts with an object whose [delta] is an object. *)
Definition delta_of (chunk : json) : option pydict :=
  match chunk with
  | JObj its =>
      match Dict.get "choices" its with
      | Some (JArr (JObj c0 :: _)) =>
          match Dict.get "delta" c0 with
          | Some (JObj d) => Some d
          | _ => None
          end
      | _ => None
      end
  | _ => None
  end.

Definition conforms (chunk : json) : bool :=
  match delta_of chunk with Some _ => true | None => false end.

(** The fragment of a chunk of the expected shape:
    [choices[0].delta.content], the empty string when absent; there is
    none when the content is not a string. *)
Definition fragment_of (chunk : json) : option string :=
  match delta_of chunk with
  | Some d =>
      match Dict.get "content" d with
      | None => Some EmptyString
      | Some (JStr f) => Some f
      | Some _ => None
      end
  | None => None
  end.

(** A line that is not UTF-8 or carries a chunk without a fragment ends
    the call with an exception; every other line is fine. *)
Definition line_ok (line : string) : bool :=
  match classify line with
  | Undecodable => false
  | Chunk c => match fragment_of c with Some _ => true | None => false end
  | _ => true
  end.

Definition line_fragment (line : string) : string :=
  match classify line with
  | Chunk c => match fragment_of c with Some f => f | None => EmptyString end
  | _ => EmptyString
  end.

(** The fragments of the chunks of a line sequence, in arrival order. *)
Definition fragments (lines : list string) : string :=
  fold_right (fun l s => line_fragment l ++ s) EmptyString lines.

(** The value under a top-level key of a chunk, and under a key of its
    first choice. *)
Definition chunk_top (key : string) (chunk : json) : option json :=
  match chunk with
  | JObj its => Dict.get key its
  | _ => None
  end.

Definition chunk_choice (key : string) (chunk : json) : option json :=
  match chunk with
  | JObj its =>
      match Dict.get "choices" its with
      | Some (JArr (JObj c0 :: _)) => Dict.get key c0
      | _ => None
      end
  | _ => None
  end.

(** The same for the chunk a line carries, if it carries one. *)
Definition line_top (key : string) (line : string) : option json :=
  match classify line with
  | Chunk c => chunk_top key c
  | _ => None
  end.

Definition line_choice (key : string) (line : string) : option json :=
  match classify line with
  | Chunk c => chunk_choice key c
  | _ => None
  end.

(** The last value stored under a key by the chunks of a line sequence,
    starting from [init]. *)
Definition last_top (key : string) (lines : list string) (init : json) : json :=
  fold_left (fun cur l => match line_top key l with Some v => v | None => cur end)
    lines init.

Definition last_choice (key : string) (lines : list string) (init : json) : json :=
  fold_left (fun cur l => match line_choice key l with Some v => v | None => cur end)
    lines init.

(** What a line that is fine lets the caller observe. *)
Definition line_events (notify : string -> list event) (line : string) : list event :=
  match classify line with
  | Malformed data => [Printed ("Failed to parse JSON from stream: " ++ data)]
  | Chunk c =>
      match fragment_of c with
      | Some (String a r) => notify (String a r)
      | _ => []
      end
  | _ => []
  end.

(** The two variants of the accumulator, with their callbacks. *)
Inductive variant : Type :=
| Blocking (stream_callback : option callback)
| NonBlocking (stream_callback : option unit).

Definition notify_of (v : variant) : string -> list event :=
  match v with
  | Blocking cb => notify_sync cb
  | NonBlocking cb => notify_async cb
  end.

Definition handle (v : variant) (lines : list string) : list event * (exn + pydict) :=
  match v with
  | Blocking cb => _handle_stream_response lines cb
  | NonBlocking cb => _handle_async_stream_response lines cb
  end.

End PerplexityClient.

(** ** Inputs used in the statements *)

Module Examples.

Import Text PerplexityRequest.

(** The same arguments with another [search_recency_filter] and another
    [max_tokens]. *)
Definition with_recency (a : args) (v : option string) : args :=
  {| a_model := a_model a; a_messages := a_messages a; a_max_tokens := a_max_tokens a;
     a_temperature := a_temperature a; a_top_p := a_top_p a;
     a_return_citations := a_return_citations a;
     a_search_domain_filter := a_search_domain_filter a;
     a_return_images := a_return_images a;
     a_return_related_questions := a_return_related_questions a;
     a_search_recency_filter := v;
     a_top_k := a_top_k a; a_stream := a_stream a;
     a_presence_penalty := a_presence_penalty a;
     a_frequency_penalty := a_frequency_penalty a; a_extra := a_extra a |}.

Definition with_max_tokens (a : args) (v : option Z) : args :=
  {| a_model := a_model a; a_messages := a_messages a; a_max_tokens := v;
     a_temperature := a_temperature a; a_top_p := a_top_p a;
     a_return_citations := a_return_citations a;
     a_search_domain_filter := a_search_domain_filter a;
     a_return_images := a_return_images a;
     a_return_related_questions := a_return_related_questions a;
     a_search_recency_filter := a_search_recency_filter a;
     a_top_k := a_top_k a; a_stream := a_stream a;
     a_presence_penalty := a_presence_penalty a;
     a_frequency_penalty := a_frequency_penalty a; a_extra := a_extra a |}.

Definition user_message : Message := {| role := "user"; content := "What is Kamiwaza.AI?" |}.

(** Lines of a response, as the server sends them. *)
Definition line_Hel : string := dq "data: {'choices':[{'delta':{'content':'Hel'}}]}".
Definition line_lo : string := dq "data: {'choices':[{'delta':{'content':'lo'}}]}".
Definition line_done : string := "data: [DONE]".
Definition line_not_json : string := "data: {not json".
Definition line_usage5 : string :=
  dq "data: {'choices':[{'delta':{'content':'a'}}],'usage':{'total_tokens':5}}".
Definition line_usage9 : string :=
  dq "data: {'choices':[{'delta':{'content':'b'}}],'usage':{'total_tokens':9}}".
Definition line_stop : string :=
  dq "data: {'choices':[{'delta':{'content':'x'},'finish_reason':'stop'}]}".
Definition line_object : string :=
  dq "data: {'object':'chat.completion.chunk','choices':[{'delta':{'content':'hi'}}]}".
Definition line_no_choices : string := dq "data: {'id':'42'}".

End Examples.

(** ** Invariants used in the proofs *)

Module Invariants.

Import Json PerplexityClient PerplexityRequest.

(** Dictionaries without duplicate keys, in a value and in the open
    containers of the parser. *)
Definition top_wf (v : json) : Prop :=
  match v with
  | JObj d => NoDup (Dict.keys d)
  | _ => True
  end.

Definition frame_wf (f : frame) : Prop :=
  match f with
  | FArr _ => True
  | FObj d => NoDup (Dict.keys d)
  | FObjKey d _ => NoDup (Dict.keys d)
  end.

Definition state_wf (p : pstate) : Prop :=
  Forall frame_wf (fst p)
  /\ match snd p with EEnd v => top_wf v | _ => True end.

(** The [choices] entry of an accumulated response with finish reason
    [fr], message content [m] and delta content [d]. *)
Definition choices_of (fr : json) (m d : string) : json :=
  JArr [ JObj [ ("index", JInt 0);
                ("finish_reason", fr);
                ("message", JObj [("role", JStr "assistant"); ("content", JStr m)]);
                ("delta", JObj [("role", JStr "assistant"); ("content", JStr d)]) ] ].

Definition shaped (acc : pydict) (fr : json) (m d : string) : Prop :=
  Dict.get "choices" acc = Some (choices_of fr m d).

Definition excluded (k : string) : bool :=
  existsb (String.eqb k) ["choices"; "usage"].

Definition emit (notify : string -> list event) (f : string) : list event :=
  match f with
  | EmptyString => []
  | _ => notify f
  end.

Definition skeleton_usage : json :=
  JObj [("prompt_tokens", JNull); ("completion_tokens", JNull); ("total_tokens", JNull)].

(** The numeric domains of the request fields, on the supplied values
    and on the fields of a request. *)
Definition in_domains (a : args) : Prop :=
  (forall x, a_temperature a = Some x -> 0 <= x /\ x < 2)%Q
  /\ (forall x, a_top_p a = Some x -> 0 <= x /\ x <= 1)%Q
  /\ (forall x, a_top_k a = Some x -> 0 <= x <= 2048)%Z
  /\ (forall x, a_presence_penalty a = Some x -> -2 <= x /\ x <= 2)%Q
  /\ (forall x, a_frequency_penalty a = Some x -> 0 <= x)%Q.

Definition request_in_domains (r : t) : Prop :=
  (0 <= temperature r /\ temperature r < 2)%Q
  /\ (0 <= top_p r /\ top_p r <= 1)%Q
  /\ (0 <= top_k r <= 2048)%Z
  /\ (-2 <= presence_penalty r /\ presence_penalty r <= 2)%Q
  /\ (0 <= frequency_penalty r)%Q.

Definition recency_tokens : list string := ["month"; "week"; "day"; "hour"].

End Invariants.


(** ** The client facade: headers and the two calls *)

Module Facade.

Import Text PerplexityClient.

Definition BASE_URL : string := "https://api.perplexity.ai/chat/completions".

(** [_get_headers] *)
Definition _get_headers (self : client) : list (string * string) :=
  [ ("Authorization", "Bearer " ++ api_key self);
    ("Content-Type", "application/json") ].

(** [headers[name]] on a dictionary of strings. *)
Fixpoint header (hs : list (string * string)) (name : string) : option string :=
  match hs with
  | [] => None
  | (k, v) :: r => if String.eqb k name then Some v else header r name
  end.

(** What a call can raise, by the class the [except] clauses test:
    [msg] is [str(e)]. *)
Inductive raised : Type :=
| RequestException (msg : string)   (* [requests.RequestException] or a subclass *)
| ClientError (msg : string)        (* [aiohttp.ClientError] or a subclass *)
| Propagated (e : exn)              (* an exception of the stream accumulator *)
| OtherError (name : string).       (* an exception of any other class *)

(** The response object of the transport, as far as the calls use it. *)
Record response : Type := {
  (* [raise_for_status()]: the message of the error it raises, if it raises *)
  http_error : option string;
  (* the lines the body delivers to [iter_lines()] / [response.content] *)
  lines : list string;
  (* the exception that ends the iteration, when the transfer fails
     after these lines *)
  broken : option raised;
  (* [response.json()] *)
  body : raised + json
}.

(** The keyword arguments of the POST; [json] is the request that
    [model_dump(exclude_none=True)] serialises, [stream] is absent in the
    asynchronous call, [timeout] is in seconds. *)
Record post_args : Type := {
  url : string;
  json_of : PerplexityRequest.t;
  headers : list (string * string);
  stream_arg : option bool;
  timeout : Z
}.

(** [requests.post(...)]: [requests.Timeout], another exception, or a
    response. *)
Inductive requests_result : Type :=
| Timeout
| PostRaised (e : raised)
| Response (r : response).

(** [session.post(...)] of aiohttp: an exception or a response. *)
Inductive aiohttp_result : Type :=
| AioRaised (e : raised)
| AioResponse (r : response).

Definition outcome : Type := (list event * (raised + json))%type.

(** The accumulator over the lines of a response: an exception of the loop
    body ends the call; otherwise the exception of the iterator, if any. *)
Definition over_lines (handler : list string -> list event * (exn + pydict))
    (r : response) : outcome :=
  match handler (lines r) with
  | (seen, inl e) => (seen, inl (Propagated e))
  | (seen, inr acc) =>
      match broken r with
      | Some e => (seen, inl e)
      | None => (seen, inr (JObj acc))
      end
  end.

(** [except requests.RequestException as e: raise requests.RequestException(...) from e] *)
Definition except_RequestException (o : outcome) : outcome :=
  match o with
  | (seen, inl (RequestException msg)) =>
      (seen, inl (RequestException ("Error making request to Perplexity API: " ++ msg)))
  | _ => o
  end.

(** [except aiohttp.ClientError as e: raise aiohttp.ClientError(...) from e] *)
Definition except_ClientError (o : outcome) : outcome :=
  match o with
  | (seen, inl (ClientError msg)) =>
      (seen, inl (ClientError ("Error making request to Perplexity API: " ++ msg)))
  | _ => o
  end.

Definition chat_completion (post : post_args -> requests_result) (self : client)
    (request : PerplexityRequest.t) (stream_callback : option callback) : outcome :=
  except_RequestException
    (let posted :=
       match post {| url := BASE_URL;
                     json_of := request;
                     headers := _get_headers self;
                     stream_arg := Some (PerplexityRequest.stream request);
                     timeout := 60 |} with
       | Timeout =>
           inl (RequestException "Request to Perplexity API timed out after 60 seconds")
       | PostRaised e => inl e
       | Response r => inr r
       end in
     match posted with
     | inl e => ([], inl e)
     | inr r =>
         match http_error r with
         | Some msg => ([], inl (RequestException msg))
         | None =>
             if PerplexityRequest.stream request
             then over_lines (fun ls => _handle_stream_response ls stream_callback) r
             else ([], body r)
         end
     end).

Definition async_chat_completion (post : post_args -> aiohttp_result) (self : client)
    (request : PerplexityRequest.t) (stream_callback : option unit) : outcome :=
  except_ClientError
    (match post {| url := BASE_URL;
                   json_of := request;
                   headers := _get_headers self;
                   stream_arg := None;
                   timeout := 60 |} with
     | AioRaised e => ([], inl e)
     | AioResponse r =>
         match http_error r with
         | Some msg => ([], inl (ClientError msg))
         | None =>
             if PerplexityRequest.stream request
             then over_lines (fun ls => _handle_async_stream_response ls stream_callback) r
             else ([], body r)
         end
     end).

(** The prefix both calls put before the message of a transport error. *)
Definition error_prefix : string := "Error making request to Perplexity API: ".

End Facade.

(** ** Vocabulary for further statements *)

Module Observations.

Import Text PerplexityClient.

(** The fragments the callback was given, in the order of the calls. *)
Definition notified (seen : list event) : list string :=
  flat_map (fun ev => match ev with
                      | Printed _ => []
                      | Called f => [f]
                      | Scheduled f => [f]
                      | Awaited f => [f]
                      end) seen.

Definition has_callback (v : variant) : bool :=
  match v with
  | Blocking (Some _) => true
  | NonBlocking (Some _) => true
  | _ => false
  end.

Definition nonempty (s : string) : bool :=
  match s with EmptyString => false | _ => true end.

(** The non-empty fragments of the chunks of a line sequence. *)
Definition nonempty_fragments (ls : list string) : list string :=
  filter nonempty (map line_fragment ls).

(** The last value stored under a top-level key, if any. *)
Definition last_top_opt (key : string) (ls : list string) (init : option json) : option json :=
  fold_left (fun cur l => match line_top key l with Some v => Some v | None => cur end)
    ls init.

Definition carries (key : string) (l : string) : bool :=
  match line_top key l with Some _ => true | None => false end.

Definition choice_carries (key : string) (l : string) : bool :=
  match line_choice key l with Some _ => true | None => false end.

Definition join (l : list string) : string := fold_right append EmptyString l.

(** The response or the exception, without the events. *)
Definition response_of (r : exn + (pydict * list event)) : exn + pydict :=
  match r with
  | inl e => inl e
  | inr (acc, _) => inr acc
  end.

(** More lines of a response. *)
Definition line_comment : string := ": keep-alive".
Definition line_not_utf8 : string := String "255"%char "data: x".
Definition line_null_content : string :=
  dq "data: {'choices':[{'delta':{'content':null}}]}".
Definition line_reason_null : string :=
  dq "data: {'choices':[{'delta':{'content':'y'},'finish_reason':null}]}".
Definition line_citations : string :=
  dq "data: {'id':'r1','citations':['https://a'],'choices':[{'index':7,'delta':{'role':'user','content':'z'}},{'delta':{'content':'other'}}]}".

(** A healthy response with the given lines. *)
Definition streaming (ls : list string) : Facade.response :=
  {| Facade.http_error := None; Facade.lines := ls; Facade.broken := None;
     Facade.body := inl (Facade.OtherError "unused") |}.

(** A client, and a request with the default fields and the given
    [stream] flag. *)
Definition a_client : client := {| api_key := "pplx-1" |}.

Definition a_request (stream : bool) : PerplexityRequest.t :=
  {| PerplexityRequest.model := "llama-3.1-sonar-large-128k-online";
     PerplexityRequest.messages := [Examples.user_message];
     PerplexityRequest.max_tokens := None;
     PerplexityRequest.temperature := 2 # 10;
     PerplexityRequest.top_p := 9 # 10;
     PerplexityRequest.return_citations := false;
     PerplexityRequest.search_domain_filter := None;
     PerplexityRequest.return_images := false;
     PerplexityRequest.return_related_questions := false;
     PerplexityRequest.search_recency_filter := None;
     PerplexityRequest.top_k := 0;
     PerplexityRequest.stream := stream;
     PerplexityRequest.presence_penalty := 0 # 1;
     PerplexityRequest.frequency_penalty := 1 # 1 |}.

(** A response with an error status, and one whose transfer breaks. *)
Definition unauthorized : Facade.response :=
  {| Facade.http_error := Some "401 Client Error"; Facade.lines := [Examples.line_Hel];
     Facade.broken := None; Facade.body := inr JNull |}.

Definition interrupted : Facade.response :=
  {| Facade.http_error := None; Facade.lines := [Examples.line_Hel; Examples.line_lo];
     Facade.broken := Some (Facade.RequestException "Connection broken");
     Facade.body := inr JNull |}.

Definition whole_body : Facade.response :=
  {| Facade.http_error := None; Facade.lines := [Examples.line_Hel];
     Facade.broken := None; Facade.body := inr (JArr [JInt 1]) |}.

End Observations.
(** * Properties *)

(** ** Dictionaries *)

Module DictFacts.

Import Dict.

Lemma get_set_same (k : string) (v : json) (d : pydict) :
  get k (set k v d) = Some v.
Proof.
  induction d as [|[k' v'] r IH]; simpl.
  - now rewrite String.eqb_refl.
  - destruct (String.eqb k k') eqn:E; simpl; rewrite E; auto.
Qed.

Lemma get_set_other (k k' : string) (v : json) (d : pydict) :
  k <> k' -> get k (set k' v d) = get k d.
Proof.
  intros Hne. induction d as [|[k2 v2] r IH]; simpl.
  - destruct (String.eqb k k') eqn:E; auto.
    apply String.eqb_eq in E. contradiction.
  - destruct (String.eqb k' k2) eqn:E; simpl.
    + apply String.eqb_eq in E. subst k2.
      destruct (String.eqb k k') eqn:E2; auto.
      apply String.eqb_eq in E2. contradiction.
    + now rewrite IH.
Qed.

Lemma get_none_notin (k : string) (d : pydict) :
  get k d = None <-> ~ In k (keys d).
Proof.
  induction d as [|[k' v'] r IH]; simpl.
  - tauto.
  - destruct (String.eqb k k') eqn:E.
    + apply String.eqb_eq in E. subst. split; [discriminate | tauto].
    + apply String.eqb_neq in E. rewrite IH. split.
      * intros H [H1 | H1]; [congruence | tauto].
      * tauto.
Qed.

Lemma keys_set (k : string) (v : json) (d : pydict) :
  keys (set k v d) = if mem k d then keys d else (keys d ++ [k])%list.
Proof.
  unfold mem. induction d as [|[k' v'] r IH]; simpl; auto.
  destruct (String.eqb k k') eqn:E; simpl; auto.
  rewrite IH. now destruct (get k r).
Qed.

Lemma set_fresh (k : string) (v : json) (d : pydict) :
  ~ In k (keys d) -> set k v d = (d ++ [(k, v)])%list.
Proof.
  induction d as [|[k' v'] r IH]; simpl; intros H; auto.
  destruct (String.eqb k k') eqn:E.
  - apply String.eqb_eq in E. subst. tauto.
  - rewrite IH; [reflexivity | unfold keys in *; tauto].
Qed.

Lemma NoDup_keys_set (k : string) (v : json) (d : pydict) :
  NoDup (keys d) -> NoDup (keys (set k v d)).
Proof.
  intros H. rewrite keys_set. unfold mem.
  destruct (get k d) eqn:E; auto.
  apply get_none_notin in E.
  apply NoDup_app; auto.
  - constructor; [tauto | constructor].
  - intros x Hx [<- | []]. tauto.
Qed.

Lemma get_update_notin (k : string) (o d : pydict) :
  ~ In k (keys o) -> get k (update d o) = get k d.
Proof.
  unfold update. revert d.
  induction o as [|[k' v'] r IH]; simpl; intros d H; auto.
  rewrite IH by tauto. apply get_set_other. intros ->. tauto.
Qed.

Lemma get_update_in (k : string) (v : json) (o d : pydict) :
  NoDup (keys o) -> get k o = Some v -> get k (update d o) = Some v.
Proof.
  unfold update. revert d.
  induction o as [|[k' v'] r IH]; simpl; intros d Hnd Hget; [discriminate|].
  inversion Hnd as [|? ? Hnotin Hnd']; subst.
  destruct (String.eqb k k') eqn:E.
  - apply String.eqb_eq in E. subst k'. injection Hget as ->.
    change (get k (update (set k v d) r) = Some v).
    rewrite get_update_notin by assumption. apply get_set_same.
  - now apply IH.
Qed.

Lemma update_nil_NoDup (o d : pydict) :
  NoDup (keys (d ++ o)%list) -> update d o = (d ++ o)%list.
Proof.
  unfold update. revert d.
  induction o as [|[k v] r IH]; simpl; intros d H.
  - now rewrite app_nil_r.
  - assert (Hk : ~ In k (keys d)).
    { unfold keys in *. rewrite map_app in H. simpl in H.
      apply NoDup_remove_2 in H. intros Hin. apply H. apply in_or_app. now left. }
    rewrite set_fresh by assumption.
    rewrite IH; rewrite <- app_assoc; simpl; auto.
Qed.

Lemma get_filter (k : string) (p : string -> bool) (d : pydict) :
  get k (filter (fun kv => p (fst kv)) d) = if p k then get k d else None.
Proof.
  induction d as [|[k' v'] r IH]; simpl.
  - now destruct (p k).
  - destruct (p k') eqn:Ep; simpl.
    + destruct (String.eqb k k') eqn:E; auto.
      apply String.eqb_eq in E. subst. now rewrite Ep.
    + rewrite IH. destruct (String.eqb k k') eqn:E; auto.
      apply String.eqb_eq in E. subst. now rewrite Ep.
Qed.

Lemma NoDup_keys_filter (p : string * json -> bool) (d : pydict) :
  NoDup (keys d) -> NoDup (keys (filter p d)).
Proof.
  induction d as [|[k v] r IH]; simpl; intros H; auto.
  inversion H as [|? ? Hn Hr]; subst.
  destruct (p (k, v)); simpl; auto.
  constructor; auto.
  intros Hin. apply Hn. unfold keys in *.
  apply in_map_iff in Hin. destruct Hin as [x [Hx Hin]].
  apply filter_In in Hin. apply in_map_iff. exists x. tauto.
Qed.

End DictFacts.

(** ** The decoder builds dictionaries without duplicate keys *)

Module JsonFacts.

Import Json Invariants.

Lemma number_top_wf (a : string) (v : json) : number a = Some v -> top_wf v.
Proof.
  unfold number.
  destruct (match a with String "-" r => (true, r) | _ => (false, a) end) as [neg body].
  destruct body as [|d0 body']; [discriminate|].
  destruct (span_digits (String d0 body') 0 0) as [[n k] rest].
  destruct (_ || _)%bool; [discriminate|].
  destruct rest.
  - intros [= <-]. exact I.
  - destruct (number_tail_ok _); [|discriminate]. intros [= <-]. exact I.
Qed.

Lemma atom_top_wf (a : string) (v : json) : atom a = Some v -> top_wf v.
Proof.
  unfold atom.
  repeat match goal with
         | |- context [if ?c then _ else _] => destruct c
         end;
    try (intros [= <-]; exact I).
  apply number_top_wf.
Qed.

Lemma complete_wf (v : json) (st : list frame) (p : pstate) :
  top_wf v -> Forall frame_wf st -> complete v st = Some p -> state_wf p.
Proof.
  intros Hv Hst. unfold complete.
  destruct st as [|[l | d | d k] st'].
  - intros [= <-]. split; simpl; auto.
  - intros [= <-]. inversion Hst; subst. split; simpl; auto.
  - discriminate.
  - intros [= <-]. inversion Hst; subst. split; simpl; auto.
    constructor; auto. simpl. now apply DictFacts.NoDup_keys_set.
Qed.

Lemma start_value_wf (t : token) (st : list frame) (p : pstate) :
  Forall frame_wf st -> start_value t st = Some p -> state_wf p.
Proof.
  intros Hst. unfold start_value. destruct t; try discriminate.
  - intros [= <-]. split; simpl; auto. constructor; auto. simpl. constructor.
  - intros [= <-]. split; simpl; auto. constructor; simpl; auto.
  - apply complete_wf; simpl; auto.
  - destruct (atom s) eqn:E; [|discriminate].
    apply complete_wf; auto. eapply atom_top_wf; eauto.
Qed.

Lemma close_arr_wf (st : list frame) (p : pstate) :
  Forall frame_wf st -> close_arr st = Some p -> state_wf p.
Proof.
  intros Hst. unfold close_arr. destruct st as [|[l | d | d k] st']; try discriminate.
  inversion Hst; subst. apply complete_wf; simpl; auto.
Qed.

Lemma close_obj_wf (st : list frame) (p : pstate) :
  Forall frame_wf st -> close_obj st = Some p -> state_wf p.
Proof.
  intros Hst. unfold close_obj. destruct st as [|[l | d | d k] st']; try discriminate.
  inversion Hst; subst. apply complete_wf; simpl; auto.
Qed.

Lemma step_wf (p p' : pstate) (t : token) :
  state_wf p -> step p t = Some p' -> state_wf p'.
Proof.
  destruct p as [st e]. intros [Hst _]. simpl in Hst. unfold step.
  destruct e, t; try discriminate;
    try (now apply start_value_wf);
    try (now apply close_arr_wf);
    try (now apply close_obj_wf);
    try (intros [= <-]; split; simpl; auto; fail).
  destruct st as [|[l | d | d k'] st']; try discriminate.
  intros [= <-]. inversion Hst; subst. split; simpl; auto.
Qed.

Lemma run_wf (ts : list token) (p : pstate) (v : json) :
  state_wf p -> run p ts = Some v -> top_wf v.
Proof.
  revert p. induction ts as [|t r IH]; simpl; intros p Hp.
  - destruct p as [[|f st] e]; try discriminate.
    destruct e; try discriminate. intros [= <-]. apply Hp.
  - destruct (step p t) as [p'|] eqn:E; [|discriminate].
    apply IH. eapply step_wf; eauto.
Qed.

(** A dictionary that [json.loads] returns has no key twice. *)
Lemma loads_wf (s : string) (v : json) : loads s = Some v -> top_wf v.
Proof.
  unfold loads. destruct (lex LOut s []) as [ts|]; [|discriminate].
  apply run_wf. split; simpl; auto.
Qed.

End JsonFacts.

(** ** The stream accumulator *)

Module StreamFacts.

Import Text PerplexityClient Invariants.

Lemma skeleton_shaped : shaped skeleton JNull EmptyString EmptyString.
Proof. reflexivity. Qed.

Lemma shaped_set (acc : pydict) (fr : json) (m d : string) :
  shaped (Dict.set "choices" (choices_of fr m d) acc) fr m d.
Proof. apply DictFacts.get_set_same. Qed.

Lemma add_content_delta (acc : pydict) (fr : json) (m d f : string) :
  shaped acc fr m d ->
  add_content "delta" (JStr f) acc
  = inr (Dict.set "choices" (choices_of fr m (d ++ f)) acc).
Proof. intros H. unfold add_content. simpl. rewrite H. reflexivity. Qed.

Lemma add_content_message (acc : pydict) (fr : json) (m d f : string) :
  shaped acc fr m d ->
  add_content "message" (JStr f) acc
  = inr (Dict.set "choices" (choices_of fr (m ++ f) d) acc).
Proof. intros H. unfold add_content. simpl. rewrite H. reflexivity. Qed.

Lemma set_finish_reason_shaped (acc : pydict) (fr v : json) (m d : string) :
  shaped acc fr m d ->
  set_finish_reason v acc = inr (Dict.set "choices" (choices_of v m d) acc).
Proof. intros H. unfold set_finish_reason. simpl. rewrite H. reflexivity. Qed.

Lemma merged_keys_filter (its : pydict) :
  NoDup (Dict.keys its) ->
  merged_keys its = filter (fun kv => negb (excluded (fst kv))) its.
Proof.
  intros H. unfold merged_keys.
  apply (DictFacts.update_nil_NoDup _ []). simpl.
  now apply DictFacts.NoDup_keys_filter.
Qed.

Lemma merged_keys_excluded (k : string) (its : pydict) :
  excluded k = true -> ~ In k (Dict.keys (merged_keys its)).
Proof.
  intros Hk. apply DictFacts.get_none_notin. unfold merged_keys.
  rewrite DictFacts.get_update_notin; [reflexivity|].
  apply DictFacts.get_none_notin.
  rewrite (DictFacts.get_filter k (fun k => negb (excluded k))).
  now rewrite Hk.
Qed.

Lemma get_merged (k : string) (its acc : pydict) :
  NoDup (Dict.keys its) -> excluded k = false ->
  Dict.get k (Dict.update acc (merged_keys its))
  = match Dict.get k its with Some v => Some v | None => Dict.get k acc end.
Proof.
  intros Hnd Hk. rewrite merged_keys_filter by assumption.
  destruct (Dict.get k its) as [v|] eqn:E.
  - apply DictFacts.get_update_in.
    + now apply DictFacts.NoDup_keys_filter.
    + rewrite (DictFacts.get_filter k (fun k => negb (excluded k))).
      now rewrite Hk.
  - apply DictFacts.get_update_notin. apply DictFacts.get_none_notin.
    rewrite (DictFacts.get_filter k (fun k => negb (excluded k))).
    now rewrite Hk.
Qed.

Lemma app_nil_r_string (s : string) : s ++ EmptyString = s.
Proof. induction s; simpl; congruence. Qed.

Lemma process_chunk_ok (notify : string -> list event) (acc : pydict) (chunk : json)
    (f : string) (fr : json) (m d : string) :
  shaped acc fr m d -> fragment_of chunk = Some f ->
  exists acc',
    process_chunk notify acc chunk = inr (acc', emit notify f)
    /\ shaped acc'
         (match chunk_choice "finish_reason" chunk with Some v => v | None => fr end)
         (m ++ f) (d ++ f)
    /\ Dict.get "usage" acc'
       = match chunk_top "usage" chunk with
         | Some u => Some u
         | None => Dict.get "usage" acc
         end
    /\ (forall k, excluded k = false -> top_wf chunk ->
        Dict.get k acc'
        = match chunk_top k chunk with Some v => Some v | None => Dict.get k acc end).
Proof.
  intros Hacc Hf.
  destruct chunk as [| | | | | |its]; try discriminate.
  unfold fragment_of, delta_of in Hf.
  destruct (Dict.get "choices" its) as [[| | | | |[|[| | | | | |c0] rest]|]|] eqn:Hch;
    try discriminate.
  destruct (Dict.get "delta" c0) as [[| | | | | |dd]|] eqn:Hdl; try discriminate.
  assert (Hc0 : choice0 (JObj its) = inr (JObj c0)).
  { unfold choice0. simpl. rewrite Hch. reflexivity. }
  assert (Hget : Py.get (JObj dd) "content" (JStr EmptyString) = inr (JStr f)).
  { simpl. destruct (Dict.get "content" dd) as [[| | | |s| |]|];
      try discriminate; injection Hf as <-; reflexivity. }
  clear Hf.
  assert (H1 : shaped (Dict.update acc (merged_keys its)) fr m d).
  { unfold shaped. rewrite DictFacts.get_update_notin; [exact Hacc|].
    now apply merged_keys_excluded. }
  unfold process_chunk.
  cbn [Py.items Py.bind Py.ret]. rewrite Hc0. cbn [Py.bind Py.getitem].
  rewrite Hdl. cbn [Py.bind Py.ret]. rewrite Hget. cbn [Py.bind].
  rewrite (add_content_delta f H1). cbn [Py.bind].
  rewrite (add_content_message f (shaped_set _ _ _ _)). cbn [Py.bind].
  set (acc2 := Dict.set "choices" (choices_of fr (m ++ f) (d ++ f)) _).
  assert (H2 : shaped acc2 fr (m ++ f) (d ++ f)) by apply shaped_set.
  assert (Hu2 : Dict.get "usage" acc2 = Dict.get "usage" acc).
  { unfold acc2. rewrite !DictFacts.get_set_other by discriminate.
    apply DictFacts.get_update_notin. now apply merged_keys_excluded. }
  assert (Hk2 : forall k, excluded k = false -> top_wf (JObj its) ->
                Dict.get k acc2
                = match Dict.get k its with Some v => Some v | None => Dict.get k acc end).
  { intros k Hk Hwf. unfold acc2.
    rewrite !DictFacts.get_set_other by (intros ->; discriminate).
    now apply get_merged. }
  clearbody acc2.
  cbn [Py.contains Py.bind Py.ret chunk_choice chunk_top]. rewrite Hch.
  unfold Dict.mem.
  set (fr' := match Dict.get "finish_reason" c0 with Some v => v | None => fr end).
  assert (exists acc3,
    (if match Dict.get "finish_reason" c0 with Some _ => true | None => false end
     then reason <- match Dict.get "finish_reason" c0 with
                    | Some x => Py.ret x
                    | None => Py.raise KeyError
                    end ;; set_finish_reason reason acc2
     else Py.ret acc2) = inr acc3
    /\ shaped acc3 fr' (m ++ f) (d ++ f)
    /\ forall k, k <> "choices" -> Dict.get k acc3 = Dict.get k acc2) as (acc3 & -> & H3 & Hk3).
  { unfold fr'. destruct (Dict.get "finish_reason" c0) as [v|].
    - cbn [Py.bind Py.ret]. rewrite (set_finish_reason_shaped v H2).
      eexists; split; [reflexivity|]. split; [apply shaped_set|].
      intros k Hk. now apply DictFacts.get_set_other.
    - eexists; split; [reflexivity|]. split; auto. }
  cbn [Py.bind].
  destruct (Dict.get "usage" its) as [u|] eqn:Hus; cbn [Py.bind Py.ret].
  - eexists; split; [reflexivity|]. split; [|split].
    + unfold shaped. rewrite DictFacts.get_set_other by discriminate. exact H3.
    + apply DictFacts.get_set_same.
    + intros k Hk Hwf.
      rewrite DictFacts.get_set_other by (intros ->; discriminate).
      rewrite Hk3 by (intros ->; discriminate). now apply Hk2.
  - eexists; split; [reflexivity|]. split; [|split].
    + exact H3.
    + rewrite Hk3 by discriminate. exact Hu2.
    + intros k Hk Hwf. rewrite Hk3 by (intros ->; discriminate). now apply Hk2.
Qed.

Ltac raises e := exists e; split; [simpl; tauto | reflexivity].

(** A chunk that is not of the expected shape: the body raises before
    it touches the accumulated response, whatever that is. *)
Lemma process_chunk_raises (notify : string -> list event) (acc : pydict) (chunk : json) :
  conforms chunk = false ->
  exists e, In e [AttributeError; KeyError; IndexError; TypeError]
            /\ process_chunk notify acc chunk = inl e.
Proof.
  unfold conforms, delta_of. intros H.
  destruct chunk as [| | | | | |its]; try raises AttributeError.
  unfold process_chunk, choice0. cbn [Py.items Py.bind Py.ret Py.getitem].
  destruct (Dict.get "choices" its) as [ch|]; [|raises KeyError].
  destruct ch as [| | | |s|[|x rest]|];
    try raises TypeError; try raises KeyError; try raises IndexError.
  - destruct s; [raises IndexError | raises TypeError].
  - cbn [Py.getitem0 Py.bind Py.ret].
    destruct x as [| | | | | |c0]; try raises TypeError.
    cbn [Py.getitem].
    destruct (Dict.get "delta" c0) as [dv|]; [|raises KeyError].
    destruct dv; try discriminate; raises AttributeError.
Qed.

Lemma decode_utf8_some (line text : string) :
  decode_utf8 line = Some text -> text = line.
Proof. unfold decode_utf8. destruct (valid_utf8 line); congruence. Qed.

(** The loop body, by the class of the line. *)
Lemma handle_line_classify (notify : string -> list event) (acc : pydict) (line : string) :
  handle_line notify acc line
  = match classify line with
    | Undecodable => inl UnicodeDecodeError
    | Ignored | Sentinel => inr (acc, [])
    | Malformed data => inr (acc, [Printed ("Failed to parse JSON from stream: " ++ data)])
    | Chunk c => process_chunk notify acc c
    end.
Proof.
  unfold handle_line, classify, payload.
  destruct line as [|a r]; [reflexivity|].
  destruct (decode_utf8 (String a r)) as [text|]; [|reflexivity].
  destruct (startswith (strip text) "data: "); [|reflexivity].
  destruct (String.eqb (drop 6 (strip text)) "[DONE]"); [reflexivity|].
  cbn [negb]. destruct (Json.loads _); reflexivity.
Qed.

Lemma classify_payload (line data : string) :
  payload line = Some data ->
  classify line = if String.eqb data "[DONE]" then Sentinel
                  else match Json.loads data with
                       | Some c => Chunk c
                       | None => Malformed data
                       end.
Proof.
  unfold classify. intros H. rewrite H.
  unfold payload in H. destruct line; [discriminate|].
  destruct (decode_utf8 _); [reflexivity | discriminate].
Qed.

Lemma classify_chunk_wf (line : string) (c : json) :
  classify line = Chunk c -> top_wf c.
Proof.
  unfold classify. destruct line; [discriminate|].
  destruct (decode_utf8 _); [|discriminate].
  destruct (payload _) as [data|]; [|discriminate].
  destruct (String.eqb data "[DONE]"); [discriminate|].
  destruct (Json.loads data) eqn:E; [|discriminate].
  intros [= <-]. eapply JsonFacts.loads_wf; eauto.
Qed.

Lemma consume_app (notify : string -> list event) (l1 l2 : list string)
    (acc : pydict) (seen : list event) :
  consume notify (l1 ++ l2) acc seen
  = match consume notify l1 acc seen with
    | (seen', inr acc') => consume notify l2 acc' seen'
    | (seen', inl e) => (seen', inl e)
    end.
Proof.
  revert acc seen. induction l1 as [|l r IH]; intros acc seen; simpl; [reflexivity|].
  destruct (handle_line notify acc l) as [e|[acc' evs]]; [reflexivity|]. apply IH.
Qed.

(** One line that is fine: the step of the accumulated response. *)
Lemma handle_line_ok (notify : string -> list event) (acc : pydict) (line : string)
    (fr : json) (m d : string) :
  line_ok line = true -> shaped acc fr m d ->
  exists acc',
    handle_line notify acc line = inr (acc', line_events notify line)
    /\ shaped acc' (match line_choice "finish_reason" line with Some v => v | None => fr end)
         (m ++ line_fragment line) (d ++ line_fragment line)
    /\ (forall k v0, k <> "choices" -> Dict.get k acc = Some v0 ->
        Dict.get k acc'
        = Some (match line_top k line with Some v => v | None => v0 end)).
Proof.
  intros Hok Hacc. rewrite handle_line_classify.
  unfold line_ok, line_events, line_choice, line_fragment, line_top in *.
  pose proof (classify_chunk_wf line) as Hwf.
  destruct (classify line) as [| | |data|c]; try discriminate;
    try (exists acc; rewrite !app_nil_r_string; auto; fail).
  destruct (fragment_of c) as [f|] eqn:Hf; [|discriminate].
  destruct (process_chunk_ok notify c Hacc Hf) as (acc' & Hp & Hs & Hu & Hk).
  exists acc'. split; [|split]; auto.
  - rewrite Hp. unfold emit. now destruct f.
  - intros k v0 Hne Hget.
    destruct (String.eqb k "usage") eqn:E.
    + apply String.eqb_eq in E. subst k. rewrite Hu, Hget.
      now destruct (chunk_top "usage" c).
    + rewrite Hk; auto.
      * rewrite Hget. now destruct (chunk_top k c).
      * unfold excluded. simpl. rewrite E.
        apply String.eqb_neq in Hne. now rewrite Hne.
Qed.

Lemma append_assoc_string (a b c : string) : (a ++ b) ++ c = a ++ (b ++ c).
Proof. induction a; simpl; congruence. Qed.

(** A sequence of lines that are all fine: the call returns, and the
    accumulated response and the events are those of the chunks. *)
Lemma consume_ok (notify : string -> list event) (lines : list string) :
  forall (acc : pydict) (seen : list event) (fr : json) (m d : string),
  forallb line_ok lines = true -> shaped acc fr m d ->
  exists acc',
    consume notify lines acc seen
    = ((seen ++ flat_map (line_events notify) lines)%list, inr acc')
    /\ shaped acc' (last_choice "finish_reason" lines fr)
         (m ++ fragments lines) (d ++ fragments lines)
    /\ (forall k v0, k <> "choices" -> Dict.get k acc = Some v0 ->
        Dict.get k acc' = Some (last_top k lines v0)).
Proof.
  induction lines as [|l r IH]; intros acc seen fr m d Hok Hacc.
  - exists acc. simpl. rewrite app_nil_r, !app_nil_r_string. auto.
  - simpl in Hok. apply andb_prop in Hok. destruct Hok as [Hl Hr].
    destruct (handle_line_ok notify l Hl Hacc) as (acc1 & H1 & Hs1 & Hk1).
    destruct (IH acc1 (seen ++ line_events notify l)%list _ _ _ Hr Hs1)
      as (acc2 & H2 & Hs2 & Hk2).
    exists acc2. split; [|split].
    + simpl. rewrite H1, H2. now rewrite <- app_assoc.
    + simpl. rewrite <- !append_assoc_string. exact Hs2.
    + intros k v0 Hne Hget. simpl. apply Hk2; auto.
Qed.

Lemma shaped_observe (acc : pydict) (fr : json) (m d : string) :
  shaped acc fr m d ->
  message_content acc = inr (JStr m)
  /\ delta_content acc = inr (JStr d)
  /\ finish_reason acc = inr fr.
Proof.
  intros H. unfold message_content, delta_content, content_of, finish_reason, choice0.
  simpl. rewrite H. auto.
Qed.

Lemma handle_consume (v : variant) (lines : list string) :
  handle v lines = consume (notify_of v) lines skeleton [].
Proof. destruct v; reflexivity. Qed.

Lemma handle_ok (v : variant) (lines : list string) :
  forallb line_ok lines = true ->
  exists acc,
    handle v lines = (flat_map (line_events (notify_of v)) lines, inr acc)
    /\ message_content acc = inr (JStr (fragments lines))
    /\ delta_content acc = inr (JStr (fragments lines))
    /\ finish_reason acc = inr (last_choice "finish_reason" lines JNull)
    /\ usage acc = inr (last_top "usage" lines skeleton_usage)
    /\ object acc = inr (last_top "object" lines (JStr "chat.completion")).
Proof.
  intros Hok. rewrite handle_consume.
  destruct (consume_ok (notify_of v) lines [] Hok skeleton_shaped)
    as (acc & H & Hs & Hk).
  exists acc. simpl in H, Hs.
  destruct (shaped_observe Hs) as (Hm & Hd & Hf).
  repeat split; auto.
  - unfold usage. simpl.
    rewrite (Hk "usage" skeleton_usage); [reflexivity | discriminate | reflexivity].
  - unfold object. simpl.
    rewrite (Hk "object" (JStr "chat.completion"));
      [reflexivity | discriminate | reflexivity].
Qed.

Lemma fragments_app (l1 l2 : list string) :
  fragments (l1 ++ l2) = fragments l1 ++ fragments l2.
Proof.
  induction l1 as [|l r IH]; simpl; [reflexivity|].
  now rewrite IH, append_assoc_string.
Qed.

Lemma last_top_app (key : string) (l1 l2 : list string) (init : json) :
  last_top key (l1 ++ l2) init = last_top key l2 (last_top key l1 init).
Proof. unfold last_top. apply fold_left_app. Qed.

Lemma last_top_none (key : string) (lines : list string) (init : json) :
  forallb (fun l => match line_top key l with None => true | Some _ => false end) lines = true ->
  last_top key lines init = init.
Proof.
  revert init. induction lines as [|l r IH]; intros init H; [reflexivity|].
  simpl in H. apply andb_prop in H. destruct H as [Hl Hr].
  unfold last_top in *. simpl. destruct (line_top key l); [discriminate|]. now apply IH.
Qed.

Lemma last_choice_app (key : string) (l1 l2 : list string) (init : json) :
  last_choice key (l1 ++ l2) init = last_choice key l2 (last_choice key l1 init).
Proof. unfold last_choice. apply fold_left_app. Qed.


End StreamFacts.

(** ** The stream accumulator: sentinel, malformed payloads, accumulation *)

Unset Implicit Arguments.

Module AccumulatorSpec.

Import Text PerplexityClient Invariants StreamFacts Examples.

Lemma skip_line (notify : string -> list event) (pre post : list string) (line : string)
    (acc : pydict) (seen : list event) :
  (forall a, handle_line notify a line = inr (a, [])) ->
  consume notify (pre ++ line :: post) acc seen = consume notify (pre ++ post) acc seen.
Proof.
  intros H. rewrite !consume_app.
  destruct (consume notify pre acc seen) as [seen' [e|acc']]; [reflexivity|].
  simpl. rewrite H. now rewrite app_nil_r.
Qed.

(** C1, as the code has it: a line whose payload is the sentinel [DONE]
    is skipped and does not end consumption.  The lines after it are
    processed as usual, so the returned response (and the events) are those
    of the sequence without the sentinel line; when the sentinel line is the
    last line, they are those of the lines before it.  Both variants. *)
Theorem sentinel_line_is_skipped (v : variant) (pre post : list string) (line : string) :
  payload line = Some "[DONE]" ->
  handle v (pre ++ line :: post) = handle v (pre ++ post)
  /\ handle v (pre ++ [line]) = handle v pre.
Proof.
  intros Hp.
  assert (Hskip : forall a, handle_line (notify_of v) a line = inr (a, [])).
  { intros a. rewrite handle_line_classify, (classify_payload _ Hp). reflexivity. }
  rewrite !handle_consume. split.
  - now apply skip_line.
  - rewrite (skip_line _ pre [] line _ _ Hskip). now rewrite app_nil_r.
Qed.

Lemma sentinel_line_is_skipped_witness :
  payload line_done = Some "[DONE]"
  /\ handle (Blocking (Some Plain)) ([line_Hel] ++ line_done :: [line_lo])
     = handle (Blocking (Some Plain)) ([line_Hel] ++ [line_lo]).
Proof.
  split; [reflexivity|].
  apply (sentinel_line_is_skipped (Blocking (Some Plain)) [line_Hel] [line_lo] line_done).
  reflexivity.
Defined.

(** C1 fails as stated: with the sentinel as first line and a chunk after
    it, the chunk is processed, and the response differs from the
    accumulation over the (empty) prefix before the sentinel. *)
Lemma sentinel_does_not_stop_consumption :
  payload line_done = Some "[DONE]"
  /\ (exists tr acc,
        handle (Blocking None) (line_done :: [line_lo]) = (tr, inr acc)
        /\ message_content acc = inr (JStr "lo"))
  /\ (exists tr acc,
        handle (Blocking None) [] = (tr, inr acc)
        /\ message_content acc = inr (JStr EmptyString))
  /\ handle (Blocking None) (line_done :: [line_lo]) <> handle (Blocking None) []
  /\ handle (NonBlocking None) (line_done :: [line_lo]) <> handle (NonBlocking None) [].
Proof.
  split; [reflexivity|]. split; [|split; [|split]].
  - do 2 eexists; split; vm_compute; reflexivity.
  - do 2 eexists; split; vm_compute; reflexivity.
  - vm_compute; discriminate.
  - vm_compute; discriminate.
Qed.




(** C4: for a sequence of lines that are fine (chunks of the expected
    shape whose content is a string or absent, and lines that carry no
    chunk), the call returns and both [message.content] and [delta.content]
    are the concatenation of the fragments in arrival order; each further
    chunk appends its fragment to both.  Both variants. *)
Theorem fragments_are_appended_to_both (v : variant) (lines : list string) (line : string) :
  forallb line_ok (lines ++ [line]) = true ->
  exists acc acc',
    snd (handle v lines) = inr acc
    /\ message_content acc = inr (JStr (fragments lines))
    /\ delta_content acc = inr (JStr (fragments lines))
    /\ snd (handle v (lines ++ [line])) = inr acc'
    /\ message_content acc' = inr (JStr (fragments lines ++ line_fragment line))
    /\ delta_content acc' = inr (JStr (fragments lines ++ line_fragment line)).
Proof.
  intros Hall.
  assert (Hl : forallb line_ok lines = true).
  { rewrite forallb_app in Hall. now apply andb_prop in Hall. }
  destruct (handle_ok v _ Hl) as (acc & H & Hm & Hd & _).
  destruct (handle_ok v _ Hall) as (acc' & H' & Hm' & Hd' & _).
  exists acc, acc'. rewrite H, H'.
  rewrite fragments_app in Hm', Hd'. simpl in Hm', Hd'.
  rewrite app_nil_r_string in Hm', Hd'. auto 7.
Qed.

Lemma fragments_are_appended_to_both_witness :
  exists acc acc',
    snd (handle (NonBlocking None) [line_Hel; line_lo]) = inr acc
    /\ message_content acc = inr (JStr "Hello")
    /\ delta_content acc = inr (JStr "Hello")
    /\ snd (handle (NonBlocking None) ([line_Hel; line_lo] ++ [line_done])) = inr acc'
    /\ message_content acc' = inr (JStr "Hello")
    /\ delta_content acc' = inr (JStr "Hello").
Proof.
  apply (fragments_are_appended_to_both (NonBlocking None) [line_Hel; line_lo] line_done).
  vm_compute; reflexivity.
Defined.

(** C5: when a chunk carries a top-level [usage] and no later chunk
    does, the returned [usage] is that chunk's value, whatever earlier
    chunks carried: replaced wholesale, last writer wins.  Both variants. *)
Theorem usage_last_writer_wins (v : variant) (pre post : list string) (line : string)
    (u : json) :
  forallb line_ok (pre ++ line :: post) = true ->
  line_top "usage" line = Some u ->
  forallb (fun l => match line_top "usage" l with None => true | Some _ => false end)
    post = true ->
  exists acc,
    snd (handle v (pre ++ line :: post)) = inr acc /\ usage acc = inr u.
Proof.
  intros Hall Hu Hpost.
  destruct (handle_ok v _ Hall) as (acc & H & _ & _ & _ & Hus & _).
  exists acc. rewrite H. split; [reflexivity|].
  rewrite Hus, last_top_app. change (line :: post) with ([line] ++ post)%list.
  rewrite last_top_app, last_top_none by assumption.
  unfold last_top at 1. simpl. now rewrite Hu.
Qed.

Lemma usage_last_writer_wins_witness :
  exists acc,
    snd (handle (Blocking None) ([line_usage5; line_Hel] ++ line_usage9 :: [line_lo; line_done]))
    = inr acc
    /\ usage acc = inr (JObj [("total_tokens", JInt 9)]).
Proof.
  apply (usage_last_writer_wins (Blocking None) [line_usage5; line_Hel]
           [line_lo; line_done] line_usage9 (JObj [("total_tokens", JInt 9)])).
  - vm_compute; reflexivity.
  - vm_compute; reflexivity.
  - vm_compute; reflexivity.
Defined.

(** C6: processing one more chunk of the expected shape sets the
    accumulated [finish_reason] to the value under the [finish_reason] key
    of its first choice when it has that key, and leaves the accumulated
    [finish_reason] as it was when it has not.  Both variants. *)
Theorem finish_reason_overwritten_or_kept (v : variant) (lines : list string)
    (line : string) (chunk : json) :
  forallb line_ok (lines ++ [line]) = true ->
  classify line = Chunk chunk ->
  exists acc acc',
    snd (handle v lines) = inr acc
    /\ snd (handle v (lines ++ [line])) = inr acc'
    /\ finish_reason acc'
       = match chunk_choice "finish_reason" chunk with
         | Some r => inr r
         | None => finish_reason acc
         end.
Proof.
  intros Hall Hc.
  assert (Hl : forallb line_ok lines = true).
  { rewrite forallb_app in Hall. now apply andb_prop in Hall. }
  destruct (handle_ok v _ Hl) as (acc & H & _ & _ & Hf & _).
  destruct (handle_ok v _ Hall) as (acc' & H' & _ & _ & Hf' & _).
  exists acc, acc'. rewrite H, H'. split; [reflexivity|]. split; [reflexivity|].
  rewrite Hf', Hf, last_choice_app. unfold last_choice at 1. simpl.
  unfold line_choice. rewrite Hc.
  now destruct (chunk_choice "finish_reason" chunk).
Qed.

Lemma finish_reason_overwritten_or_kept_witness :
  exists acc acc',
    snd (handle (Blocking None) [line_Hel; line_stop]) = inr acc
    /\ snd (handle (Blocking None) ([line_Hel; line_stop] ++ [line_lo])) = inr acc'
    /\ finish_reason acc' = finish_reason acc
    /\ finish_reason acc' = inr (JStr "stop").
Proof.
  destruct (finish_reason_overwritten_or_kept (Blocking None) [line_Hel; line_stop] line_lo
              (JObj [("choices", JArr [JObj [("delta", JObj [("content", JStr "lo")])]])]))
    as (acc & acc' & H & H' & Hf).
  - vm_compute; reflexivity.
  - vm_compute; reflexivity.
  - exists acc, acc'. split; [exact H|]. split; [exact H'|]. split; [exact Hf|].
    rewrite Hf. vm_compute in H. injection H as <-. vm_compute. reflexivity.
Defined.

(** C8, as the code has it: [object] starts as "chat.completion" and is
    merged like every top-level key other than [choices] and [usage]: it
    keeps that value as long as no chunk carries a top-level [object] key,
    and a chunk that carries one overwrites it, later chunks overwriting
    earlier ones.  Both variants. *)
Theorem object_last_writer_wins (v : variant) (lines : list string) :
  forallb line_ok lines = true ->
  exists acc,
    snd (handle v lines) = inr acc
    /\ object acc = inr (last_top "object" lines (JStr "chat.completion"))
    /\ (forallb (fun l => match line_top "object" l with None => true | Some _ => false end)
          lines = true ->
        object acc = inr (JStr "chat.completion")).
Proof.
  intros Hall.
  destruct (handle_ok v _ Hall) as (acc & H & _ & _ & _ & _ & Ho).
  exists acc. rewrite H. split; [reflexivity|]. split; [exact Ho|].
  intros Hn. now rewrite Ho, last_top_none.
Qed.

Lemma object_last_writer_wins_witness :
  exists acc,
    snd (handle (Blocking None) [line_Hel; line_lo; line_done]) = inr acc
    /\ object acc = inr (JStr "chat.completion").
Proof.
  destruct (object_last_writer_wins (Blocking None) [line_Hel; line_lo; line_done])
    as (acc & H & _ & Hkeep).
  - vm_compute; reflexivity.
  - exists acc. split; [exact H|]. apply Hkeep. vm_compute; reflexivity.
Defined.

(** C8 fails as stated: a chunk that carries a top-level [object] key
    changes the accumulated [object]. *)
Lemma object_is_overwritten_by_a_chunk :
  (exists tr acc,
     handle (Blocking None) [line_object] = (tr, inr acc)
     /\ object acc = inr (JStr "chat.completion.chunk")
     /\ object acc <> inr (JStr "chat.completion"))
  /\ (exists tr acc,
        handle (NonBlocking None) [line_object] = (tr, inr acc)
        /\ object acc = inr (JStr "chat.completion.chunk")
        /\ object acc <> inr (JStr "chat.completion")).
Proof.
  split; do 2 eexists; (split; [vm_compute; reflexivity|]);
    (split; [vm_compute; reflexivity | vm_compute; discriminate]).
Qed.

(** C10: a line whose payload parses as JSON but is not of the expected
    chunk shape (not an object, no [choices] key, [choices] not a non-empty
    list, its first element not an object with a [delta] object) is not
    skipped: the loop body raises [AttributeError], [KeyError],
    [IndexError] or [TypeError], nothing catches it, and the call ends
    with an exception instead of a response.  Both variants. *)
Theorem unexpected_shape_aborts (v : variant) (pre post : list string)
    (line data : string) (chunk : json) :
  payload line = Some data -> data <> "[DONE]" -> Json.loads data = Some chunk ->
  conforms chunk = false ->
  (forall notify acc, exists e,
      In e [AttributeError; KeyError; IndexError; TypeError]
      /\ handle_line notify acc line = inl e)
  /\ (exists tr e, handle v (pre ++ line :: post) = (tr, inl e))
  /\ (forallb line_ok pre = true ->
      exists e, In e [AttributeError; KeyError; IndexError; TypeError]
                /\ handle v (pre ++ line :: post)
                   = (flat_map (line_events (notify_of v)) pre, inl e)).
Proof.
  intros Hp Hd Hl Hc.
  assert (Hcl : classify line = Chunk chunk).
  { rewrite (classify_payload _ Hp), Hl. apply String.eqb_neq in Hd. now rewrite Hd. }
  assert (Hraise : forall notify acc, exists e,
             In e [AttributeError; KeyError; IndexError; TypeError]
             /\ handle_line notify acc line = inl e).
  { intros notify acc. rewrite handle_line_classify, Hcl.
    now apply process_chunk_raises. }
  split; [exact Hraise|]. split.
  - rewrite handle_consume, consume_app.
    destruct (consume (notify_of v) pre skeleton []) as [seen [e|acc]]; [eauto|].
    destruct (Hraise (notify_of v) acc) as (e & _ & He).
    exists seen, e. simpl. now rewrite He.
  - intros Hpre. rewrite handle_consume, consume_app.
    destruct (consume_ok (notify_of v) pre [] Hpre skeleton_shaped) as (acc & H & _).
    rewrite H. destruct (Hraise (notify_of v) acc) as (e & Hin & He).
    exists e. split; [exact Hin|]. simpl. now rewrite He.
Qed.

Lemma unexpected_shape_aborts_witness :
  exists tr e, handle (Blocking (Some Plain)) ([line_Hel] ++ line_no_choices :: [line_lo])
               = (tr, inl e).
Proof.
  apply (unexpected_shape_aborts (Blocking (Some Plain)) [line_Hel] [line_lo]
           line_no_choices (dq "{'id':'42'}") (JObj [("id", JStr "42")])).
  - vm_compute; reflexivity.
  - vm_compute; discriminate.
  - vm_compute; reflexivity.
  - vm_compute; reflexivity.
Defined.

End AccumulatorSpec.

(** ** Request construction and credential resolution *)

Module RequestSpec.

Import PerplexityRequest Invariants Examples.

Lemma new_cases (a : args) :
  (validate a = [] /\ exists r, new a = inr r)
  \/ (validate a <> [] /\ new a = inl (validate a)).
Proof.
  unfold new. destruct (validate a) as [|e es].
  - left. split; [reflexivity | eexists; reflexivity].
  - right. split; [discriminate | reflexivity].
Qed.

Lemma Qge_bool_iff (x b : Q) : Qge_bool x b = true <-> (b <= x)%Q.
Proof. unfold Qge_bool. apply Qle_bool_iff. Qed.

Lemma Qlt_bool_iff (x b : Q) : Qlt_bool x b = true <-> (x < b)%Q.
Proof.
  unfold Qlt_bool. rewrite negb_true_iff. split.
  - intros H. apply Qnot_le_lt. intros Hle. apply Qle_bool_iff in Hle. congruence.
  - intros H. destruct (Qle_bool b x) eqn:E; [|reflexivity].
    apply Qle_bool_iff in E. exfalso. eapply Qlt_not_le; eauto.
Qed.

Lemma check2_nil {A : Type} (f : string) (x : A) (p q : A -> bool) (e1 e2 : error_type) :
  check f (Some x) [(p, e1); (q, e2)] = [] <-> p x = true /\ q x = true.
Proof.
  unfold check. simpl. destruct (p x), (q x); simpl; split;
    try discriminate; try tauto; intros [? ?]; discriminate.
Qed.

Lemma check1_nil {A : Type} (f : string) (x : A) (p : A -> bool) (e1 : error_type) :
  check f (Some x) [(p, e1)] = [] <-> p x = true.
Proof.
  unfold check. simpl. destruct (p x); simpl; split; try discriminate; tauto.
Qed.

Lemma validate_nil_domains (a : args) : validate a = [] -> in_domains a.
Proof.
  unfold validate. intros H.
  repeat match type of H with
         | (_ ++ _)%list = [] => apply app_eq_nil in H; destruct H as [? H]
         end.
  unfold in_domains. repeat apply conj; intros x Hx;
    repeat match goal with
           | Hc : check _ (?f a) _ = [] |- _ =>
               rewrite Hx in Hc;
               first [apply check2_nil in Hc; destruct Hc as [? ?]
                     | apply check1_nil in Hc]
           end;
    try split;
    try (apply Qge_bool_iff; assumption);
    try (apply Qlt_bool_iff; assumption);
    try (apply Qle_bool_iff; assumption);
    try (apply Z.leb_le; assumption).
Qed.

Lemma default_domain {A : Type} (P : A -> Prop) (v : option A) (d : A) :
  (forall x, v = Some x -> P x) -> P d -> P (default v d).
Proof. intros H Hd. destruct v; simpl; auto. Qed.

(** C2, as the code has it: construction succeeds only if every supplied
    [temperature], [top_p], [top_k], [presence_penalty] and
    [frequency_penalty] lies in its domain, and then the fields of the
    request lie in their domains; if one of them lies outside, construction
    fails with a validation error (construction is a pure function: nothing
    is sent).  [max_tokens] is not checked: any integer is accepted and
    stored as given. *)
Theorem request_numeric_domains (a : args) :
  (forall r, new a = inr r ->
     in_domains a /\ request_in_domains r /\ max_tokens r = a_max_tokens a)
  /\ (~ in_domains a -> exists es, new a = inl es /\ es <> [])
  /\ (forall n, validate (with_max_tokens a n) = validate a).
Proof.
  split; [|split].
  - intros r Hr. destruct (new_cases a) as [[Hv _] | [_ Hn]]; [|congruence].
    pose proof (validate_nil_domains a Hv) as Hd.
    split; [exact Hd|].
    unfold new in Hr. rewrite Hv in Hr. injection Hr as <-. simpl.
    split; [|reflexivity].
    destruct Hd as (Ht & Hp & Hk & Hpp & Hf).
    unfold request_in_domains. simpl. repeat apply conj.
    + apply (default_domain (fun x => 0 <= x)%Q); [apply Ht | discriminate].
    + apply (default_domain (fun x => x < 2)%Q); [apply Ht | reflexivity].
    + apply (default_domain (fun x => 0 <= x)%Q); [apply Hp | discriminate].
    + apply (default_domain (fun x => x <= 1)%Q); [apply Hp | discriminate].
    + apply (default_domain (fun x => 0 <= x)%Z); [apply Hk | discriminate].
    + apply (default_domain (fun x => x <= 2048)%Z); [apply Hk | discriminate].
    + apply (default_domain (fun x => -2 <= x)%Q); [apply Hpp | discriminate].
    + apply (default_domain (fun x => x <= 2)%Q); [apply Hpp | discriminate].
    + apply (default_domain (fun x => 0 <= x)%Q); [apply Hf | discriminate].
  - intros Hnot. destruct (new_cases a) as [[Hv _] | [Hne Hn]].
    + exfalso. apply Hnot. now apply validate_nil_domains.
    + eauto.
  - intros n. reflexivity.
Qed.

Lemma request_numeric_domains_witness :
  match new (only_messages [user_message]) with
  | inr r => in_domains (only_messages [user_message])
             /\ request_in_domains r /\ max_tokens r = None
  | inl _ => False
  end.
Proof.
  exact (proj1 (request_numeric_domains (only_messages [user_message])) _ eq_refl).
Defined.

(** C2 fails as stated for [max_tokens]: a request with [max_tokens = 0]
    or [max_tokens = -5] is constructed. *)
Lemma max_tokens_is_not_checked :
  (exists r, new (with_max_tokens (only_messages [user_message]) (Some 0)) = inr r
             /\ max_tokens r = Some 0)
  /\ (exists r, new (with_max_tokens (only_messages [user_message]) (Some (-5))) = inr r
                /\ max_tokens r = Some (-5) /\ ~ (0 < -5)).
Proof.
  split; eexists; (split; [reflexivity|]); [reflexivity|].
  split; [reflexivity | lia].
Qed.

Lemma recency_ok (v : string) :
  In v recency_tokens -> validate_search_recency_filter (Some v) = inr (Some v).
Proof.
  unfold recency_tokens. simpl.
  intros [<- | [<- | [<- | [<- | []]]]]; reflexivity.
Qed.

Lemma recency_bad (v : string) :
  ~ In v recency_tokens ->
  validate_search_recency_filter (Some v)
  = inl [("search_recency_filter", invalid_search_recency_filter)].
Proof.
  intros H. unfold validate_search_recency_filter.
  destruct (existsb (String.eqb v) ["month"; "week"; "day"; "hour"]) eqn:E; [|reflexivity].
  exfalso. apply H. apply existsb_exists in E. destruct E as (x & Hin & Hx).
  apply String.eqb_eq in Hx. now subst.
Qed.

(** C7: with [search_recency_filter] one of month, week, day, hour the
    field contributes no error (the validation errors are those of the same
    arguments without the filter, so construction succeeds whenever it does
    without it); with any other string construction fails and the
    validation error has the entry [invalid_search_recency_filter] for the
    field; in particular "year" fails and "day" succeeds. *)
Theorem recency_filter_validation (a : args) (v : string) :
  (In v recency_tokens ->
     validate (with_recency a (Some v)) = validate (with_recency a None)
     /\ forall r, new (with_recency a None) = inr r ->
                  exists r', new (with_recency a (Some v)) = inr r'
                             /\ search_recency_filter r' = Some v)
  /\ (~ In v recency_tokens ->
      exists es, new (with_recency a (Some v)) = inl es
                 /\ In ("search_recency_filter", invalid_search_recency_filter) es)
  /\ validate_search_recency_filter None = inr None
  /\ new (with_recency (only_messages [user_message]) (Some "year"))
     = inl [("search_recency_filter", invalid_search_recency_filter)]
  /\ (exists r, new (with_recency (only_messages [user_message]) (Some "day")) = inr r).
Proof.
  split; [|split; [|split; [reflexivity | split; [reflexivity | eexists; reflexivity]]]].
  - intros Hin.
    assert (Hv : validate (with_recency a (Some v)) = validate (with_recency a None)).
    { unfold validate.
      change (a_search_recency_filter (with_recency a (Some v))) with (Some v).
      now rewrite (recency_ok v Hin). }
    split; [exact Hv|].
    intros r Hr. destruct (new_cases (with_recency a None)) as [[H0 _] | [_ Hn]];
      [|congruence].
    unfold new. rewrite Hv, H0. eexists. split; reflexivity.
  - intros Hnot.
    assert (Hin : In ("search_recency_filter", invalid_search_recency_filter)
                    (validate (with_recency a (Some v)))).
    { unfold validate.
      change (a_search_recency_filter (with_recency a (Some v))) with (Some v).
      rewrite (recency_bad v Hnot).
      do 4 (apply in_or_app; right). apply in_or_app. left. simpl. auto. }
    destruct (new_cases (with_recency a (Some v))) as [[H0 _] | [_ Hn]].
    + rewrite H0 in Hin. destruct Hin.
    + eauto.
Qed.

Lemma recency_filter_validation_witness :
  validate (with_recency (only_messages [user_message]) (Some "week"))
  = validate (with_recency (only_messages [user_message]) None).
Proof.
  apply (proj1 (recency_filter_validation (only_messages [user_message]) "week")).
  simpl. auto.
Defined.

End RequestSpec.

Module ClientSpec.

Import PerplexityClient.

(** C9, as the code has it: a non-empty explicit credential is used
    whatever the environment holds; an absent or empty explicit credential
    leaves the choice to the environment value, which is used when it is
    non-empty; when neither is non-empty, construction fails with
    [ValueError].  Construction only reads the environment. *)
Theorem credential_resolution (environ : list (string * string)) (key : option string) :
  __init__ environ key
  = match key with
    | Some (String c r) => inr {| api_key := String c r |}
    | _ =>
        match environ_get environ "PERPLEXITY_API_KEY" with
        | Some (String c r) => inr {| api_key := String c r |}
        | _ => inl ValueError
        end
    end.
Proof.
  unfold __init__, py_or.
  destruct key as [[|c r]|]; simpl; try reflexivity;
    destruct (environ_get environ "PERPLEXITY_API_KEY") as [[|c' r']|]; reflexivity.
Qed.

(** C9 fails as stated: an explicit credential that is the empty string
    does not take precedence; the environment value is used. *)
Lemma empty_credential_yields_to_environment :
  __init__ [("PERPLEXITY_API_KEY", "from-env")] (Some EmptyString) = inr {| api_key := "from-env" |}
  /\ __init__ [("PERPLEXITY_API_KEY", "from-env")] (Some EmptyString) <> inr {| api_key := EmptyString |}.
Proof. split; [reflexivity | discriminate]. Qed.

End ClientSpec.

(** ** The stream accumulator: further properties *)

Module AccumulatorMore.

Import Text PerplexityClient Invariants StreamFacts Examples Observations.





Lemma drop_line (n : string -> list event) (pre post : list string) (line : string)
    (acc : pydict) (seen : list event) :
  (forall a, handle_line n a line = inr (a, [])) ->
  consume n (pre ++ line :: post) acc seen = consume n (pre ++ post) acc seen.
Proof.
  intros H. rewrite !consume_app.
  destruct (consume n pre acc seen) as [seen' [e|acc']]; [reflexivity|].
  simpl. rewrite H. now rewrite app_nil_r.
Qed.

(** X1: a line that is empty, or that decodes and, stripped, does not
    start with "data: " (a comment, a keep-alive, another SSE field), has no
    effect wherever it stands: response and events are those of the sequence
    without it.  Both variants. *)
Theorem line_without_prefix_is_ignored (v : variant) (pre post : list string) (line : string) :
  line = EmptyString
  \/ (valid_utf8 line = true /\ startswith (strip line) "data: " = false) ->
  handle v (pre ++ line :: post) = handle v (pre ++ post).
Proof.
  intros H. rewrite !handle_consume. apply drop_line. intros a.
  unfold handle_line. destruct H as [-> | [Hv Hs]]; [reflexivity|].
  destruct line as [|c r]; [reflexivity|].
  unfold decode_utf8. rewrite Hv, Hs. reflexivity.
Qed.

Lemma line_without_prefix_is_ignored_witness :
  handle (Blocking (Some Plain)) ([line_Hel] ++ line_comment :: [line_lo])
  = handle (Blocking (Some Plain)) ([line_Hel] ++ [line_lo]).
Proof.
  apply (line_without_prefix_is_ignored (Blocking (Some Plain)) [line_Hel] [line_lo]
           line_comment).
  right. split; vm_compute; reflexivity.
Defined.

(** X2: a non-empty line that is not UTF-8 ends the call with
    [UnicodeDecodeError] (the decoding is outside the [try]): after lines
    that are fine, the events are those of these lines and no later line is
    processed.  Both variants. *)
Theorem undecodable_line_aborts (v : variant) (pre post : list string) (line : string) :
  forallb line_ok pre = true ->
  line <> EmptyString -> valid_utf8 line = false ->
  handle v (pre ++ line :: post)
  = (flat_map (line_events (notify_of v)) pre, inl UnicodeDecodeError).
Proof.
  intros Hpre Hne Hv. rewrite handle_consume, consume_app.
  destruct (consume_ok (notify_of v) pre [] Hpre skeleton_shaped) as (acc & H & _).
  rewrite H. simpl. unfold handle_line.
  destruct line as [|c r]; [contradiction|].
  unfold decode_utf8. rewrite Hv. reflexivity.
Qed.

Lemma undecodable_line_aborts_witness :
  handle (Blocking (Some Plain)) ([line_Hel] ++ line_not_utf8 :: [line_lo])
  = ([Called "Hel"], inl UnicodeDecodeError).
Proof.
  apply (undecodable_line_aborts (Blocking (Some Plain)) [line_Hel] [line_lo] line_not_utf8).
  - vm_compute; reflexivity.
  - discriminate.
  - vm_compute; reflexivity.
Defined.

Lemma add_content_not_str (field : string) (x : json) (acc : pydict) (fr : json) (m d : string) :
  field = "delta" \/ field = "message" ->
  shaped acc fr m d -> (forall s, x <> JStr s) ->
  add_content field x acc = inl TypeError.
Proof.
  intros Hf H Hx. unfold add_content. simpl. rewrite H.
  destruct Hf as [-> | ->]; simpl; destruct x; try reflexivity; now destruct (Hx s).
Qed.

(** X3: a chunk of the expected shape whose [content] is present but
    not a string (for instance [null]) is not skipped: after lines that are
    fine, the [+=] raises [TypeError], which ends the call.  Both variants. *)
Theorem content_that_is_not_a_string_aborts (v : variant) (pre post : list string)
    (line : string) (chunk : json) (delta : pydict) (x : json) :
  forallb line_ok pre = true ->
  classify line = Chunk chunk ->
  delta_of chunk = Some delta -> Dict.get "content" delta = Some x ->
  (forall s, x <> JStr s) ->
  handle v (pre ++ line :: post)
  = (flat_map (line_events (notify_of v)) pre, inl TypeError).
Proof.
  intros Hpre Hc Hd Hx Hns. rewrite handle_consume, consume_app.
  destruct (consume_ok (notify_of v) pre [] Hpre skeleton_shaped) as (acc & H & Hs & _).
  rewrite H. simpl. rewrite handle_line_classify, Hc.
  assert (Hraise : process_chunk (notify_of v) acc chunk = inl TypeError).
  { unfold delta_of in Hd.
    destruct chunk as [| | | | | |its]; try discriminate.
    destruct (Dict.get "choices" its) as [[| | | | |[|[| | | | | |c0] rest]|]|] eqn:Hch;
      try discriminate.
    destruct (Dict.get "delta" c0) as [[| | | | | |dd]|] eqn:Hdl; try discriminate.
    injection Hd as ->.
    unfold process_chunk, choice0.
    cbn [Py.items Py.bind Py.ret Py.getitem]. rewrite Hch.
    cbn [Py.getitem0 Py.bind Py.ret Py.getitem]. rewrite Hdl.
    cbn [Py.bind Py.ret Py.get]. rewrite Hx.
    assert (Hs1 : shaped (Dict.update acc (merged_keys its))
                    (last_choice "finish_reason" pre JNull)
                    (fragments pre) (fragments pre)).
    { unfold shaped. rewrite DictFacts.get_update_notin; [exact Hs|].
      now apply merged_keys_excluded. }
    now rewrite (add_content_not_str "delta" x _ _ _ _ (or_introl eq_refl) Hs1 Hns). }
  now rewrite Hraise.
Qed.

Lemma content_that_is_not_a_string_aborts_witness :
  handle (NonBlocking (Some tt)) ([line_Hel] ++ line_null_content :: [line_lo])
  = ([Awaited "Hel"], inl TypeError).
Proof.
  apply (content_that_is_not_a_string_aborts (NonBlocking (Some tt)) [line_Hel] [line_lo]
           line_null_content
           (JObj [("choices", JArr [JObj [("delta", JObj [("content", JNull)])]])])
           [("content", JNull)] JNull).
  - vm_compute; reflexivity.
  - vm_compute; reflexivity.
  - reflexivity.
  - reflexivity.
  - intros s; discriminate.
Defined.


(** X5: once a line has ended the call with an exception, nothing that
    follows is processed: events and exception are those of the lines up to
    it.  Both variants. *)
Theorem no_line_is_processed_after_an_exception (v : variant) (pre post : list string)
    (seen : list event) (e : exn) :
  handle v pre = (seen, inl e) -> handle v (pre ++ post) = (seen, inl e).
Proof.
  rewrite !handle_consume, consume_app. now intros ->.
Qed.

Lemma no_line_is_processed_after_an_exception_witness :
  handle (Blocking (Some Coroutine)) ([line_Hel; line_no_choices] ++ [line_lo; line_not_json])
  = ([Scheduled "Hel"], inl KeyError).
Proof.
  apply (no_line_is_processed_after_an_exception (Blocking (Some Coroutine))
           [line_Hel; line_no_choices] [line_lo; line_not_json]).
  vm_compute; reflexivity.
Defined.

Lemma notified_app (a b : list event) : notified (a ++ b) = (notified a ++ notified b)%list.
Proof. unfold notified. apply flat_map_app. Qed.



Lemma notified_line (v : variant) (l : string) :
  notified (line_events (notify_of v) l)
  = if has_callback v then filter nonempty [line_fragment l] else [].
Proof.
  unfold line_events, line_fragment.
  destruct (classify l) as [| | |data|c]; simpl; try now destruct (has_callback v).
  destruct (fragment_of c) as [[|a r]|]; simpl; try now destruct (has_callback v).
  destruct v as [[[|]|]|[[]|]]; reflexivity.
Qed.

Lemma notified_lines (v : variant) (ls : list string) :
  notified (flat_map (line_events (notify_of v)) ls)
  = if has_callback v then nonempty_fragments ls else [].
Proof.
  unfold nonempty_fragments. induction ls as [|l r IH]; simpl.
  - now destruct (has_callback v).
  - rewrite notified_app, IH, notified_line.
    destruct (has_callback v); [|reflexivity].
    simpl. now destruct (nonempty (line_fragment l)).
Qed.

Lemma join_nonempty (ls : list string) : join (nonempty_fragments ls) = fragments ls.
Proof.
  unfold nonempty_fragments, join. induction ls as [|l r IH]; simpl; [reflexivity|].
  destruct (line_fragment l) eqn:E; simpl; now rewrite IH.
Qed.

(** X7: for lines that are fine, the callback is given exactly the
    non-empty fragments, one call per chunk that has one, in arrival order;
    an empty or absent content gives no call; joined, the fragments given to
    the callback are the returned [message.content].  Without a callback
    there is no call.  Both variants. *)
Theorem callback_gets_every_nonempty_fragment (v : variant) (ls : list string) :
  forallb line_ok ls = true ->
  exists acc,
    snd (handle v ls) = inr acc
    /\ notified (fst (handle v ls)) = (if has_callback v then nonempty_fragments ls else [])
    /\ (has_callback v = true ->
        message_content acc = inr (JStr (join (notified (fst (handle v ls)))))).
Proof.
  intros Hok. destruct (handle_ok v ls Hok) as (acc & H & Hm & _).
  exists acc. rewrite H. simpl. rewrite notified_lines.
  split; [reflexivity|]. split; [reflexivity|].
  intros ->. now rewrite join_nonempty.
Qed.

Lemma callback_gets_every_nonempty_fragment_witness :
  exists acc,
    snd (handle (Blocking (Some Plain)) [line_Hel; line_stop; line_not_json; line_lo]) = inr acc
    /\ notified (fst (handle (Blocking (Some Plain))
                        [line_Hel; line_stop; line_not_json; line_lo]))
       = ["Hel"; "x"; "lo"]
    /\ message_content acc = inr (JStr "Helxlo").
Proof.
  destruct (callback_gets_every_nonempty_fragment (Blocking (Some Plain))
              [line_Hel; line_stop; line_not_json; line_lo])
    as (acc & H & Hn & Hm).
  - vm_compute; reflexivity.
  - exists acc. split; [exact H|]. split; [exact Hn|].
    rewrite (Hm eq_refl). vm_compute. reflexivity.
Defined.

Lemma handle_line_key (n : string -> list event) (acc : pydict) (line : string)
    (fr : json) (m d : string) (k : string) :
  line_ok line = true -> shaped acc fr m d -> k <> "choices" ->
  exists acc' fr',
    response_of (handle_line n acc line) = inr acc'
    /\ shaped acc' fr' (m ++ line_fragment line) (d ++ line_fragment line)
    /\ Dict.get k acc'
       = match line_top k line with Some x => Some x | None => Dict.get k acc end.
Proof.
  intros Hok Hacc Hk. rewrite handle_line_classify.
  unfold line_ok, line_fragment, line_top in *.
  pose proof (classify_chunk_wf line) as Hwf.
  destruct (classify line) as [| | |data|c]; try discriminate;
    try (exists acc, fr; rewrite !app_nil_r_string; auto; fail).
  destruct (fragment_of c) as [f|] eqn:Hf; [|discriminate].
  destruct (process_chunk_ok n c Hacc Hf) as (acc' & Hp & Hs & Hu & Hg).
  exists acc'. eexists. rewrite Hp. split; [reflexivity|]. split; [exact Hs|].
  destruct (String.eqb k "usage") eqn:E.
  - apply String.eqb_eq in E. subst k. exact Hu.
  - apply Hg; [|now apply Hwf].
    unfold excluded. simpl. rewrite E. apply String.eqb_neq in Hk. now rewrite Hk.
Qed.

Lemma consume_key (n : string -> list event) (k : string) (ls : list string) :
  k <> "choices" ->
  forall (acc : pydict) (seen : list event) (fr : json) (m d : string),
    forallb line_ok ls = true -> shaped acc fr m d ->
    exists acc',
      snd (consume n ls acc seen) = inr acc'
      /\ Dict.get k acc' = last_top_opt k ls (Dict.get k acc).
Proof.
  intros Hk. induction ls as [|l r IH]; intros acc seen fr m d Hok Hacc.
  - exists acc. auto.
  - simpl in Hok. apply andb_prop in Hok. destruct Hok as [Hl Hr].
    destruct (handle_line_key n acc l fr m d k Hl Hacc Hk) as (acc1 & fr1 & H1 & Hs1 & Hg1).
    simpl. destruct (handle_line n acc l) as [e|[a evs]]; simpl in H1; [discriminate|].
    injection H1 as ->.
    destruct (IH acc1 (seen ++ evs)%list _ _ _ Hr Hs1) as (acc2 & H2 & Hg2).
    exists acc2. split; [exact H2|].
    rewrite Hg2, Hg1. reflexivity.
Qed.

Lemma last_top_opt_none (key : string) (ls : list string) (init : option json) :
  forallb (fun l => negb (carries key l)) ls = true ->
  last_top_opt key ls init = init.
Proof.
  unfold last_top_opt, carries. revert init.
  induction ls as [|l r IH]; intros init H; [reflexivity|].
  simpl in H. apply andb_prop in H. destruct H as [Hl Hr]. simpl.
  destruct (line_top key l); [discriminate|]. now apply IH.
Qed.

(** X8: every top-level key of a chunk other than [choices] is stored
    in the response, also keys the skeleton does not have (such as
    [citations]): for lines that are fine, the value under such a key is that
    of the last chunk that carries it, and a key no chunk carries is as in
    the skeleton (absent if it is not there).  Both variants. *)
Theorem top_level_keys_last_writer_wins (v : variant) (ls : list string) (key : string) :
  forallb line_ok ls = true -> key <> "choices" ->
  exists acc,
    snd (handle v ls) = inr acc
    /\ Dict.get key acc = last_top_opt key ls (Dict.get key skeleton)
    /\ (forallb (fun l => negb (carries key l)) ls = true ->
        Dict.get key acc = Dict.get key skeleton).
Proof.
  intros Hok Hk. rewrite handle_consume.
  destruct (consume_key (notify_of v) key ls Hk skeleton [] JNull EmptyString EmptyString
              Hok skeleton_shaped) as (acc & H & Hg).
  exists acc. split; [exact H|]. split; [exact Hg|].
  intros Hn. now rewrite Hg, last_top_opt_none.
Qed.

Lemma top_level_keys_last_writer_wins_witness :
  exists acc,
    snd (handle (Blocking None) [line_Hel; line_citations; line_lo]) = inr acc
    /\ Dict.get "citations" acc = Some (JArr [JStr "https://a"]).
Proof.
  destruct (top_level_keys_last_writer_wins (Blocking None)
              [line_Hel; line_citations; line_lo] "citations")
    as (acc & H & Hg & _).
  - vm_compute; reflexivity.
  - discriminate.
  - exists acc. split; [exact H|]. rewrite Hg. vm_compute. reflexivity.
Defined.

(** X9: the [choices] of a chunk are never stored.  For lines that are
    fine the response has exactly one choice, with index 0 and the role
    "assistant" in [message] and in [delta], whatever index, role or
    further choices the chunks carry, and its two contents are equal. *)
Theorem response_has_one_assistant_choice (v : variant) (ls : list string) :
  forallb line_ok ls = true ->
  exists acc reason,
    snd (handle v ls) = inr acc
    /\ Dict.get "choices" acc
       = Some (JArr [ JObj [ ("index", JInt 0);
                             ("finish_reason", reason);
                             ("message", JObj [ ("role", JStr "assistant");
                                                ("content", JStr (fragments ls)) ]);
                             ("delta", JObj [ ("role", JStr "assistant");
                                              ("content", JStr (fragments ls)) ]) ] ]).
Proof.
  intros Hok. rewrite handle_consume.
  destruct (consume_ok (notify_of v) ls [] Hok skeleton_shaped) as (acc & H & Hs & _).
  exists acc. eexists. rewrite H. split; [reflexivity|]. exact Hs.
Qed.

Lemma response_has_one_assistant_choice_witness :
  exists acc reason,
    snd (handle (Blocking None) [line_citations]) = inr acc
    /\ Dict.get "choices" acc
       = Some (JArr [ JObj [ ("index", JInt 0);
                             ("finish_reason", reason);
                             ("message", JObj [ ("role", JStr "assistant");
                                                ("content", JStr "z") ]);
                             ("delta", JObj [ ("role", JStr "assistant");
                                              ("content", JStr "z") ]) ] ]).
Proof.
  apply (response_has_one_assistant_choice (Blocking None) [line_citations]).
  vm_compute; reflexivity.
Defined.

Lemma last_choice_none (key : string) (ls : list string) (init : json) :
  forallb (fun l => negb (choice_carries key l)) ls = true ->
  last_choice key ls init = init.
Proof.
  unfold last_choice, choice_carries. revert init.
  induction ls as [|l r IH]; intros init H; [reflexivity|].
  simpl in H. apply andb_prop in H. destruct H as [Hl Hr]. simpl.
  destruct (line_choice key l); [discriminate|]. now apply IH.
Qed.

(** X10: the returned [finish_reason] is the value under the key in the
    first choice of the last chunk that has the key; the test is on the key,
    not on the value, so a later chunk with [finish_reason: null] resets a
    "stop" to [None].  Both variants. *)
Theorem finish_reason_of_the_last_chunk_with_the_key (v : variant) (pre post : list string)
    (line : string) (r : json) :
  forallb line_ok (pre ++ line :: post) = true ->
  line_choice "finish_reason" line = Some r ->
  forallb (fun l => negb (choice_carries "finish_reason" l)) post = true ->
  exists acc,
    snd (handle v (pre ++ line :: post)) = inr acc /\ finish_reason acc = inr r.
Proof.
  intros Hok Hr Hpost.
  destruct (handle_ok v _ Hok) as (acc & H & _ & _ & Hf & _).
  exists acc. rewrite H. split; [reflexivity|].
  rewrite Hf, last_choice_app. change (line :: post) with ([line] ++ post)%list.
  rewrite last_choice_app, last_choice_none by assumption.
  unfold last_choice at 1. simpl. now rewrite Hr.
Qed.

Lemma finish_reason_of_the_last_chunk_with_the_key_witness :
  exists acc,
    snd (handle (Blocking None) ([line_stop] ++ line_reason_null :: [line_lo])) = inr acc
    /\ finish_reason acc = inr JNull.
Proof.
  apply (finish_reason_of_the_last_chunk_with_the_key (Blocking None)
           [line_stop] [line_lo] line_reason_null JNull).
  - vm_compute; reflexivity.
  - vm_compute; reflexivity.
  - vm_compute; reflexivity.
Defined.

End AccumulatorMore.

(** ** Request construction: the validation errors, entry by entry *)

Module RequestMore.

Import PerplexityRequest Invariants Examples.

Lemma new_result (a : args) :
  (validate a = [] /\ exists r, new a = inr r)
  \/ (validate a <> [] /\ new a = inl (validate a)).
Proof.
  unfold new. destruct (validate a) as [|e es].
  - left. split; [reflexivity | eexists; reflexivity].
  - right. split; [discriminate | reflexivity].
Qed.

Lemma Qge_bool_false (x b : Q) : Qge_bool x b = false <-> (x < b)%Q.
Proof.
  unfold Qge_bool. split.
  - intros H. apply Qnot_le_lt. intros Hle. apply Qle_bool_iff in Hle. congruence.
  - intros H. destruct (Qle_bool b x) eqn:E; [|reflexivity].
    apply Qle_bool_iff in E. exfalso. eapply Qlt_not_le; eauto.
Qed.

Lemma Qle_bool_false (x b : Q) : Qle_bool x b = false <-> (b < x)%Q.
Proof. apply (Qge_bool_false b x). Qed.

Lemma Qlt_bool_false (x b : Q) : Qlt_bool x b = false <-> (b <= x)%Q.
Proof.
  unfold Qlt_bool. rewrite negb_false_iff. apply Qle_bool_iff.
Qed.

(** An entry of a constrained field: the field is the one checked, and
    one of its constraints fails on the supplied value. *)
Lemma In_check {A : Type} (f : string) (v : option A)
    (cs : list ((A -> bool) * error_type)) (e : error) :
  In e (check f v cs)
  <-> exists x c, v = Some x /\ In c cs /\ fst c x = false /\ e = (f, snd c).
Proof.
  unfold check. destruct v as [x|].
  - rewrite in_flat_map. split.
    + intros (c & Hc & Hin). destruct (fst c x) eqn:E; [destruct Hin|].
      destruct Hin as [<- | []]. exists x, c. auto.
    + intros (x' & c & Hx & Hc & Hf & ->). injection Hx as <-.
      exists c. split; [exact Hc|]. rewrite Hf. simpl. auto.
  - split; [intros [] | intros (x & c & Hx & _); discriminate].
Qed.

Lemma In_validate (e : error) (a : args) :
  In e (validate a)
  <-> (e = ("messages", missing) /\ a_messages a = None)
      \/ In e (check "temperature" (a_temperature a)
                 [(fun x => Qge_bool x (0 # 1), greater_than_equal);
                  (fun x => Qlt_bool x (2 # 1), less_than)])
      \/ In e (check "top_p" (a_top_p a)
                 [(fun x => Qge_bool x (0 # 1), greater_than_equal);
                  (fun x => Qle_bool x (1 # 1), less_than_equal)])
      \/ In e (check "search_domain_filter" (a_search_domain_filter a)
                 [(fun l => Nat.leb (List.length l) 3, too_long)])
      \/ (e = ("search_recency_filter", invalid_search_recency_filter)
          /\ exists s, a_search_recency_filter a = Some s /\ ~ In s recency_tokens)
      \/ In e (check "top_k" (a_top_k a)
                 [(fun x => Z.leb 0 x, greater_than_equal);
                  (fun x => Z.leb x 2048, less_than_equal)])
      \/ In e (check "presence_penalty" (a_presence_penalty a)
                 [(fun x => Qge_bool x (-2 # 1), greater_than_equal);
                  (fun x => Qle_bool x (2 # 1), less_than_equal)])
      \/ In e (check "frequency_penalty" (a_frequency_penalty a)
                 [(fun x => Qge_bool x (0 # 1), greater_than_equal)])
      \/ (exists k, e = (k, extra_forbidden) /\ In k (a_extra a)).
Proof.
  unfold validate. rewrite !in_app_iff.
  assert (Hm : In e (match a_messages a with
                     | None => [("messages", missing)]
                     | Some _ => []
                     end)
               <-> e = ("messages", missing) /\ a_messages a = None).
  { destruct (a_messages a); simpl; split; try tauto.
    - intros [_ H]; discriminate.
    - intros [<- | []]; auto.
    - intros [-> _]; auto. }
  assert (Hr : In e (errors_of (validate_search_recency_filter (a_search_recency_filter a)))
               <-> e = ("search_recency_filter", invalid_search_recency_filter)
                   /\ exists s, a_search_recency_filter a = Some s /\ ~ In s recency_tokens).
  { unfold validate_search_recency_filter, recency_tokens.
    destruct (a_search_recency_filter a) as [s|]; [|simpl].
    - destruct (existsb (String.eqb s) ["month"; "week"; "day"; "hour"]) eqn:E;
        cbn [negb errors_of In].
      + split; [tauto|]. intros [_ (s' & Hs & Hn)]. injection Hs as <-.
        apply Hn. apply existsb_exists in E. destruct E as (y & Hy & Heq).
        apply String.eqb_eq in Heq. now subst.
      + split.
        * intros [<- | []]. split; [reflexivity|]. exists s. split; [reflexivity|].
          intros Hin. assert (existsb (String.eqb s) ["month"; "week"; "day"; "hour"] = true).
          { apply existsb_exists. exists s. split; [exact Hin | apply String.eqb_refl]. }
          congruence.
        * intros [-> _]. auto.
    - split; [tauto|]. intros [_ (s & Hs & _)]. discriminate. }
  assert (Hx : In e (map (fun k => (k, extra_forbidden)) (a_extra a))
               <-> exists k, e = (k, extra_forbidden) /\ In k (a_extra a)).
  { rewrite in_map_iff. split; intros (k & H1 & H2); exists k; auto. }
  rewrite Hm, Hr, Hx. tauto.
Qed.

Ltac entry :=
  match goal with
  | H : In _ (check _ _ _) |- _ =>
      apply In_check in H; destruct H as (? & ? & ? & ? & ? & ?)
  | H : In _ [] |- _ => destruct H
  | H : In _ (_ :: _) |- _ => destruct H
  | H : _ /\ _ |- _ => destruct H
  | H : exists _, _ |- _ => destruct H
  | H : _ \/ _ |- _ => destruct H
  | H : (_, _) = (_, _) |- _ => injection H as ? ?
  end.

Ltac entries := repeat entry; subst; simpl in *; try discriminate; try congruence.

(** A failed constraint against the domain of the field. *)
Ltac bounds :=
  repeat match goal with
         | Hq : Qge_bool _ _ = false |- _ => apply Qge_bool_false in Hq
         | Hq : Qle_bool _ _ = false |- _ => apply Qle_bool_false in Hq
         | Hq : Qlt_bool _ _ = false |- _ => apply Qlt_bool_false in Hq
         | Hq : Nat.leb _ _ = false |- _ => apply Nat.leb_gt in Hq
         | Hq : Z.leb _ _ = false |- _ => apply Z.leb_gt in Hq
         end;
  try match goal with
      | Hv : ?f ?a = Some ?x, Hd : forall y, ?f ?a = Some y -> _ |- _ =>
          specialize (Hd _ Hv);
          first [ lia
                | exfalso; destruct Hd; eapply Qlt_not_le; eassumption
                | exfalso; eapply Qlt_not_le; eassumption ]
      end.

(** X11: construction succeeds exactly when [messages] is supplied,
    every supplied numeric field is in its domain, a supplied
    [search_domain_filter] has at most 3 entries, a supplied
    [search_recency_filter] is one of the four tokens and no other keyword is
    given.  An empty [messages] list is accepted. *)
Theorem construction_succeeds_exactly_when (a : args) :
  (exists r, new a = inr r)
  <-> (exists msgs, a_messages a = Some msgs)
      /\ in_domains a
      /\ (forall l, a_search_domain_filter a = Some l -> (List.length l <= 3)%nat)
      /\ (forall s, a_search_recency_filter a = Some s -> In s recency_tokens)
      /\ a_extra a = [].
Proof.
  split.
  - intros [r Hr].
    destruct (new_result a) as [[Hv _] | [_ Hn]]; [|congruence].
    assert (Hno : forall e, ~ In e (validate a)) by (intros e; rewrite Hv; tauto).
    split; [|split; [|split; [|split]]].
    + destruct (a_messages a) as [msgs|] eqn:E; [eauto|].
      exfalso. apply (Hno ("messages", missing)). apply In_validate. auto.
    + now apply RequestSpec.validate_nil_domains.
    + intros l Hl. destruct (Nat.leb (List.length l) 3) eqn:E; [now apply Nat.leb_le|].
      exfalso. apply (Hno ("search_domain_filter", too_long)). apply In_validate.
      do 3 right. left. apply In_check. eexists l, (_, too_long). simpl. eauto.
    + intros s Hs.
      destruct (in_dec string_dec s recency_tokens) as [Hin|Hnin]; [exact Hin|].
      exfalso. apply (Hno ("search_recency_filter", invalid_search_recency_filter)).
      apply In_validate. do 4 right. left. eauto.
    + destruct (a_extra a) as [|k ks] eqn:E; [reflexivity|].
      exfalso. apply (Hno (k, extra_forbidden)). apply In_validate.
      do 8 right. exists k. rewrite E. simpl. auto.
  - intros ([msgs Hm] & (Ht & Hp & Hk & Hpp & Hf) & Hl & Hs & Hx).
    destruct (new_result a) as [[_ Hr] | [Hne _]]; [exact Hr|].
    exfalso. destruct (validate a) as [|e es] eqn:E; [now apply Hne|].
    assert (Hin : In e (validate a)) by (rewrite E; simpl; auto).
    apply In_validate in Hin.
    destruct Hin as [H|[H|[H|[H|[H|[H|[H|[H|H]]]]]]]]; entries; bounds.
    + match goal with Hn : ~ _ |- _ => apply Hn end.
      now apply Hs.
    + match goal with Hin : In _ (a_extra a) |- _ => rewrite Hx in Hin; destruct Hin end.
Qed.

Ltac from_entry :=
  let H := fresh "H" in
  intros H; apply In_validate in H;
  destruct H as [H|[H|[H|[H|[H|[H|[H|[H|H]]]]]]]]; entries; bounds.

Tactic Notation "to_entry" integer(n) constr(k) :=
  apply In_validate; do n right; left; apply In_check;
  eexists _, (_, k); split; [eassumption|];
  split; [simpl; first [left; reflexivity | right; left; reflexivity]|];
  split; [simpl | reflexivity].

(** X12: the validation error lists every violation, not only the
    first: it is the list [validate] computes, it has the entry
    [missing] for [messages] exactly when [messages] is not supplied, the
    entry [too_long] for [search_domain_filter] exactly when a filter with
    more than 3 entries is supplied, and an entry [extra_forbidden] for
    exactly the keywords that are not fields. *)
Theorem every_violation_is_reported (a : args) :
  (forall es, new a = inl es -> es = validate a /\ es <> [])
  /\ (In ("messages", missing) (validate a) <-> a_messages a = None)
  /\ (In ("search_domain_filter", too_long) (validate a)
      <-> exists l, a_search_domain_filter a = Some l /\ (3 < List.length l)%nat)
  /\ (forall k, In (k, extra_forbidden) (validate a) <-> In k (a_extra a)).
Proof.
  split; [|split; [|split]].
  - intros es Hes. destruct (new_result a) as [[_ [r Hr]] | [Hne Hn]]; [congruence|].
    rewrite Hn in Hes. injection Hes as <-. auto.
  - split.
    + from_entry; auto.
    + intros Hm. apply In_validate. auto.
  - split.
    + from_entry. eauto.
    + intros (l & Hl & Hlen). to_entry 3 too_long. apply Nat.leb_gt. exact Hlen.
  - intros k. split.
    + from_entry; auto.
    + intros Hk. apply In_validate. do 8 right. eauto.
Qed.

(** X13: the bounds, entry by entry.  [temperature] is rejected below 0
    and from 2 on (2 itself is rejected); [top_p] below 0 and above 1;
    [top_k] below 0 and above 2048; [presence_penalty] below -2 and above 2;
    [frequency_penalty] below 0, with no upper bound.  Each entry is in the
    error exactly when its bound is violated by the supplied value. *)
Theorem bound_entries (a : args) :
  (In ("temperature", greater_than_equal) (validate a)
     <-> exists x, a_temperature a = Some x /\ (x < 0)%Q)
  /\ (In ("temperature", less_than) (validate a)
      <-> exists x, a_temperature a = Some x /\ (2 <= x)%Q)
  /\ (In ("top_p", greater_than_equal) (validate a)
      <-> exists x, a_top_p a = Some x /\ (x < 0)%Q)
  /\ (In ("top_p", less_than_equal) (validate a)
      <-> exists x, a_top_p a = Some x /\ (1 < x)%Q)
  /\ (In ("top_k", greater_than_equal) (validate a)
      <-> exists x, a_top_k a = Some x /\ (x < 0)%Z)
  /\ (In ("top_k", less_than_equal) (validate a)
      <-> exists x, a_top_k a = Some x /\ (2048 < x)%Z)
  /\ (In ("presence_penalty", greater_than_equal) (validate a)
      <-> exists x, a_presence_penalty a = Some x /\ (x < -2)%Q)
  /\ (In ("presence_penalty", less_than_equal) (validate a)
      <-> exists x, a_presence_penalty a = Some x /\ (2 < x)%Q)
  /\ (In ("frequency_penalty", greater_than_equal) (validate a)
      <-> exists x, a_frequency_penalty a = Some x /\ (x < 0)%Q).
Proof.
  repeat match goal with |- _ /\ _ => split end;
    (split; [from_entry; eauto | intros (x & Hx & Hb)]).
  - to_entry 1 greater_than_equal. now apply Qge_bool_false.
  - to_entry 1 less_than. now apply Qlt_bool_false.
  - to_entry 2 greater_than_equal. now apply Qge_bool_false.
  - to_entry 2 less_than_equal. now apply Qle_bool_false.
  - to_entry 5 greater_than_equal. now apply Z.leb_gt.
  - to_entry 5 less_than_equal. now apply Z.leb_gt.
  - to_entry 6 greater_than_equal. now apply Qge_bool_false.
  - to_entry 6 less_than_equal. now apply Qle_bool_false.
  - to_entry 7 greater_than_equal. now apply Qge_bool_false.
Qed.

End RequestMore.

(** ** The client facade *)

Module FacadeFacts.

Import Text PerplexityClient Invariants StreamFacts Examples Observations Facade.

(** X14: a client that was constructed has a non-empty credential,
    which is the explicit one or the one of the environment, and its headers
    are [Authorization: Bearer] followed by that credential and the JSON
    content type. *)
Theorem constructed_client_sends_its_credential (environ : list (string * string))
    (key : option string) (self : client) :
  __init__ environ key = inr self ->
  api_key self <> EmptyString
  /\ (key = Some (api_key self)
      \/ environ_get environ "PERPLEXITY_API_KEY" = Some (api_key self))
  /\ header (_get_headers self) "Authorization" = Some ("Bearer " ++ api_key self)
  /\ header (_get_headers self) "Content-Type" = Some "application/json".
Proof.
  unfold __init__, py_or. intros H.
  assert (Hk : api_key self <> EmptyString
               /\ (key = Some (api_key self)
                   \/ environ_get environ "PERPLEXITY_API_KEY" = Some (api_key self))).
  { destruct key as [[|c r]|]; simpl in H.
    - destruct (environ_get environ "PERPLEXITY_API_KEY") as [[|c r]|]; simpl in H;
        try discriminate. injection H as <-. simpl. split; [discriminate | auto].
    - injection H as <-. simpl. split; [discriminate | auto].
    - destruct (environ_get environ "PERPLEXITY_API_KEY") as [[|c r]|]; simpl in H;
        try discriminate. injection H as <-. simpl. split; [discriminate | auto]. }
  destruct Hk as [Hne Hsrc]. repeat split; auto.
Qed.

Lemma constructed_client_sends_its_credential_witness :
  header (_get_headers a_client) "Authorization" = Some "Bearer pplx-1".
Proof.
  apply (constructed_client_sends_its_credential
           [("PERPLEXITY_API_KEY", "from-env")] (Some "pplx-1") a_client).
  reflexivity.
Defined.

Lemma over_lines_cases (h : list string -> list event * (exn + pydict)) (r : response) :
  over_lines h r
  = match snd (h (lines r)) with
    | inl e => (fst (h (lines r)), inl (Propagated e))
    | inr acc =>
        match broken r with
        | Some e => (fst (h (lines r)), inl e)
        | None => (fst (h (lines r)), inr (JObj acc))
        end
    end.
Proof.
  unfold over_lines. destruct (h (lines r)) as [seen [e|acc]]; reflexivity.
Qed.

Ltac inv_eq :=
  let H := fresh "H" in
  intros H; inversion H; subst; try (eexists; reflexivity).

(** X15: whatever the transport does, a [RequestException] that leaves
    [chat_completion] has a message that starts with the fixed prefix; when
    the POST times out, the message is the prefix followed by the text of the
    inner handler, and nothing is read or notified. *)
Theorem request_errors_carry_the_prefix (post : post_args -> requests_result)
    (self : client) (request : PerplexityRequest.t) (cb : option callback) :
  (forall seen msg,
      chat_completion post self request cb = (seen, inl (RequestException msg)) ->
      exists m, msg = error_prefix ++ m)
  /\ ((forall args, post args = Timeout) ->
      chat_completion post self request cb
      = ([], inl (RequestException
                    (error_prefix ++ "Request to Perplexity API timed out after 60 seconds")))).
Proof.
  split.
  - intros seen msg. unfold chat_completion, except_RequestException, error_prefix.
    destruct (post _) as [|e|r]; cbv zeta.
    + inv_eq.
    + destruct e; inv_eq.
    + destruct (http_error r) as [m|]; [inv_eq|].
      destruct (PerplexityRequest.stream request).
      * rewrite over_lines_cases.
        destruct (snd (_handle_stream_response (lines r) cb)) as [e|acc]; [inv_eq|].
        destruct (broken r) as [[m| | |]|]; inv_eq.
      * destruct (body r) as [[m| | |]|v]; inv_eq.
  - intros Hpost. unfold chat_completion. rewrite Hpost. reflexivity.
Qed.

Lemma request_errors_carry_the_prefix_witness :
  chat_completion (fun _ => Timeout) a_client (a_request true) (Some Plain)
  = ([], inl (RequestException
                "Error making request to Perplexity API: Request to Perplexity API timed out after 60 seconds")).
Proof.
  apply (proj2 (request_errors_carry_the_prefix (fun _ => Timeout) a_client
                  (a_request true) (Some Plain))).
  reflexivity.
Defined.

(** X16: when the response has an error status, both calls fail with
    the wrapped message of that error and nothing of the body is used: no
    line is consumed, the callback is not called, whatever the lines, the
    body and the [stream] flag are. *)
Theorem error_status_prevents_reading (r : response) (msg : string)
    (self : client) (request : PerplexityRequest.t) :
  http_error r = Some msg ->
  (forall post cb, (forall args, post args = Response r) ->
     chat_completion post self request cb
     = ([], inl (RequestException (error_prefix ++ msg))))
  /\ (forall post cb, (forall args, post args = AioResponse r) ->
       async_chat_completion post self request cb
       = ([], inl (ClientError (error_prefix ++ msg)))).
Proof.
  intros Hs. split; intros post cb Hpost.
  - unfold chat_completion. rewrite Hpost. cbv zeta. rewrite Hs. reflexivity.
  - unfold async_chat_completion. rewrite Hpost, Hs. reflexivity.
Qed.

Lemma error_status_prevents_reading_witness :
  chat_completion (fun _ => Response unauthorized) a_client (a_request true) (Some Plain)
  = ([], inl (RequestException
                "Error making request to Perplexity API: 401 Client Error")).
Proof.
  apply (proj1 (error_status_prevents_reading unauthorized "401 Client Error" a_client
                  (a_request true) eq_refl)).
  reflexivity.
Defined.

(** X17: an exception of the stream accumulator ([KeyError],
    [TypeError], [UnicodeDecodeError], ...) leaves both calls as it is, not
    as the transport error the calls document: the [except] clauses do not
    catch it.  The events up to it have happened. *)
Theorem accumulator_exceptions_are_not_wrapped (r : response) (self : client)
    (request : PerplexityRequest.t) (seen : list event) (e : exn) :
  http_error r = None -> PerplexityRequest.stream request = true ->
  (forall post cb, (forall args, post args = Response r) ->
     _handle_stream_response (lines r) cb = (seen, inl e) ->
     chat_completion post self request cb = (seen, inl (Propagated e)))
  /\ (forall post cb, (forall args, post args = AioResponse r) ->
       _handle_async_stream_response (lines r) cb = (seen, inl e) ->
       async_chat_completion post self request cb = (seen, inl (Propagated e))).
Proof.
  intros Hs Hst. split; intros post cb Hpost Hh.
  - unfold chat_completion. rewrite Hpost. cbv zeta. rewrite Hs, Hst.
    unfold over_lines. rewrite Hh. reflexivity.
  - unfold async_chat_completion. rewrite Hpost, Hs, Hst.
    unfold over_lines. rewrite Hh. reflexivity.
Qed.

Lemma accumulator_exceptions_are_not_wrapped_witness :
  chat_completion (fun _ => Response (streaming [line_Hel; line_no_choices; line_lo]))
    a_client (a_request true) (Some Plain)
  = ([Called "Hel"], inl (Propagated KeyError)).
Proof.
  apply (proj1 (accumulator_exceptions_are_not_wrapped
                  (streaming [line_Hel; line_no_choices; line_lo]) a_client
                  (a_request true) [Called "Hel"] KeyError eq_refl eq_refl)).
  - reflexivity.
  - vm_compute; reflexivity.
Defined.

(** X18: a streaming [chat_completion] returns a response exactly when
    the accumulator returned one and the transfer was complete, and the
    response is the accumulated one.  When the transfer breaks after some
    lines, the call raises, although the callback has been called for the
    lines that arrived: no partial response is returned. *)
Theorem streaming_call_returns_only_a_complete_response
    (post : post_args -> requests_result) (r : response) (self : client)
    (request : PerplexityRequest.t) (cb : option callback) :
  (forall args, post args = Response r) ->
  http_error r = None -> PerplexityRequest.stream request = true ->
  (forall seen v,
      chat_completion post self request cb = (seen, inr v)
      <-> exists acc, _handle_stream_response (lines r) cb = (seen, inr acc)
                      /\ broken r = None /\ v = JObj acc)
  /\ (forall e seen acc,
        broken r = Some e ->
        _handle_stream_response (lines r) cb = (seen, inr acc) ->
        exists e', chat_completion post self request cb = (seen, inl e')).
Proof.
  intros Hpost Hs Hst.
  assert (Hc : chat_completion post self request cb
               = except_RequestException
                   (over_lines (fun ls => _handle_stream_response ls cb) r)).
  { unfold chat_completion. rewrite Hpost. cbv zeta. now rewrite Hs, Hst. }
  rewrite Hc. unfold over_lines. split.
  - intros seen v.
    destruct (_handle_stream_response (lines r) cb) as [seen' [e|acc]].
    + simpl. split; [discriminate | intros (a & H & _); discriminate].
    + destruct (broken r) as [[m| | |]|]; simpl;
        (split; [intros H; inversion H; subst; eauto
                | intros (a & H & Hb & ->); inversion H; subst;
                  try discriminate; reflexivity]).
  - intros e seen acc Hb Hh. rewrite Hh, Hb.
    destruct e; simpl; eauto.
Qed.

Lemma streaming_call_returns_only_a_complete_response_witness :
  exists e',
    chat_completion (fun _ => Response interrupted) a_client (a_request true) (Some Plain)
    = ([Called "Hel"; Called "lo"], inl e').
Proof.
  destruct (streaming_call_returns_only_a_complete_response
              (fun _ => Response interrupted) interrupted a_client (a_request true)
              (Some Plain) (fun _ => eq_refl) eq_refl eq_refl) as [_ Hbroken].
  eapply Hbroken; [reflexivity | vm_compute; reflexivity].
Defined.

(** X19: without [stream], the callback and the lines are not used:
    there are no events, the outcome does not depend on the callback, and the
    JSON value of the body is returned as it is (any value, not only an
    object). *)
Theorem call_without_stream_returns_the_body (post : post_args -> requests_result)
    (self : client) (request : PerplexityRequest.t) (cb : option callback) :
  PerplexityRequest.stream request = false ->
  fst (chat_completion post self request cb) = []
  /\ chat_completion post self request cb = chat_completion post self request None
  /\ (forall r v, (forall args, post args = Response r) ->
                  http_error r = None -> body r = inr v ->
                  chat_completion post self request cb = ([], inr v)).
Proof.
  intros Hst. unfold chat_completion. rewrite Hst. split; [|split].
  - destruct (post _) as [|e|r]; cbv zeta.
    + reflexivity.
    + destruct e; reflexivity.
    + destruct (http_error r); [reflexivity|].
      destruct (body r) as [[m| | |]|v]; reflexivity.
  - reflexivity.
  - intros r v Hpost Hs Hb. rewrite Hpost. cbv zeta. rewrite Hs, Hb. reflexivity.
Qed.

Lemma call_without_stream_returns_the_body_witness :
  chat_completion (fun _ => Response whole_body) a_client (a_request false) (Some Plain)
  = ([], inr (JArr [JInt 1])).
Proof.
  apply (proj2 (proj2 (call_without_stream_returns_the_body
                         (fun _ => Response whole_body) a_client (a_request false)
                         (Some Plain) eq_refl)) whole_body (JArr [JInt 1])).
  - intros args. reflexivity.
  - reflexivity.
  - reflexivity.
Defined.



(** X21: in the asynchronous call only an [aiohttp.ClientError] is
    wrapped: one that leaves the call has a message that starts with the
    fixed prefix, and any other exception of the POST (a time-out that is not
    a [ClientError], for instance) leaves the call unchanged; there is no
    clause that translates a time-out. *)
Theorem async_call_wraps_only_client_errors (post : post_args -> aiohttp_result)
    (self : client) (request : PerplexityRequest.t) (cb : option unit) :
  (forall seen msg,
      async_chat_completion post self request cb = (seen, inl (ClientError msg)) ->
      exists m, msg = error_prefix ++ m)
  /\ (forall e, (forall m, e <> ClientError m) ->
                (forall args, post args = AioRaised e) ->
                async_chat_completion post self request cb = ([], inl e)).
Proof.
  split.
  - intros seen msg. unfold async_chat_completion, except_ClientError, error_prefix.
    destruct (post _) as [e|r].
    + destruct e; inv_eq.
    + destruct (http_error r) as [m|]; [inv_eq|].
      destruct (PerplexityRequest.stream request).
      * rewrite over_lines_cases.
        destruct (snd (_handle_async_stream_response (lines r) cb)) as [e|acc]; [inv_eq|].
        destruct (broken r) as [[m| | |]|]; inv_eq.
      * destruct (body r) as [[m| | |]|v]; inv_eq.
  - intros e Hne Hpost. unfold async_chat_completion. rewrite Hpost.
    destruct e; try reflexivity. now destruct (Hne msg).
Qed.

Lemma async_call_wraps_only_client_errors_witness :
  async_chat_completion (fun _ => AioRaised (OtherError "TimeoutError"))
    a_client (a_request true) (Some tt)
  = ([], inl (OtherError "TimeoutError")).
Proof.
  apply (proj2 (async_call_wraps_only_client_errors
                  (fun _ => AioRaised (OtherError "TimeoutError"))
                  a_client (a_request true) (Some tt))).
  - intros m; discriminate.
  - reflexivity.
Defined.

End FacadeFacts.
